(** * The match route of the applicant tracking system

    A shallow embedding of the Next.js route handler [POST] of the
    matching API (the second document of
    [frontend/app/upload-resumes/page.tsx]), of the row types declared in
    [frontend/lib/supabase.ts] and of the constraints of the
    [match_results] table declared in the SQL schema, followed by the
    properties of the matching engine that the handler decides.

    Conventions of the embedding.
    - A JavaScript [number] is an IEEE 754 double: a rational ([Q]) that
      every arithmetic operation rounds to the nearest double, halves to
      the even significand ([JS.double]).  Integers that are computed
      without rounding are [Z].  Overflow, NaN and the sign of zero are
      not modelled.
    - A JavaScript string is the [string] of the bytes of its UTF-8
      encoding, the strings being well formed; [includes] on the bytes is
      [includes] on the code units, the encoding being self-synchronising.
      [toLowerCase] is the case mapping of the runtime, a table of the
      Unicode standard: it is a parameter of the handler
      ([JS.CaseMapping]).
    - [T | null] is [option T].
    - A thrown exception is [None] in the result of the throwing
      computation; the [try]/[catch] of the handler turns it into the 500
      response.
    - The store is a record of three tables, each a list of rows in table
      order; the faults of the store and the reply of the Python backend
      are inputs of the handler, gathered in an environment. *)

From Stdlib Require Import List String Ascii ZArith QArith Qround Qpower Lia Bool.
From Stdlib Require Import Permutation Sorted DecimalString Lqa.
Import ListNotations.

Local Open Scope string_scope.
Local Open Scope list_scope.

(* ================================================================== *)
(** * Definitions *)
(* ================================================================== *)

(** ** The fragment of the JavaScript runtime used by the handler *)

Module JS.

(** *** Strings *)

(** [s.toLowerCase()]: the lower-case mapping of the Unicode standard, a
    table of the runtime and not code of this repository.  The handler is
    verified for every mapping that leaves the empty string empty. *)
Class CaseMapping := {
  toLowerCase : string -> string;
  toLowerCase_empty : toLowerCase "" = ""
}.

(** [c] lowered, for the letters A..Z; every other byte is kept. *)
Definition lower_ascii (c : ascii) : ascii :=
  let n := nat_of_ascii c in
  if ((65 <=? n) && (n <=? 90))%nat then ascii_of_nat (n + 32) else c.

(** The string with its letters A..Z lowered: the form in which the flag
    [i] of a pattern of ASCII letters compares a text. *)
Fixpoint fold_case (s : string) : string :=
  match s with
  | EmptyString => EmptyString
  | String c s' => String (lower_ascii c) (fold_case s')
  end.

(** [s.includes(t)]: [t] occurs in [s] at some position.  The empty
    string occurs in every string. *)
Fixpoint includes (s t : string) : bool :=
  prefix t s ||
  match s with
  | EmptyString => false
  | String _ s' => includes s' t
  end.

(** *** Numbers *)

(** The nearest integer, halves to the even one. *)
Definition round_half_even (x : Q) : Z :=
  let f := Qfloor x in
  match Qcompare (x - inject_Z f) (1 # 2) with
  | Lt => f
  | Eq => if Z.even f then f else (f + 1)%Z
  | Gt => (f + 1)%Z
  end.

Definition pow2 (e : Z) : Q := (2 ^ e)%Q.

(** The integer part of the binary logarithm of a positive number. *)
Definition ilog2 (q : Q) : Z :=
  let l := (Z.log2 (Qnum q) - Z.log2 (Zpos (Qden q)))%Z in
  if Qle_bool (pow2 l) q then l else (l - 1)%Z.

(** The exponent of the last bit of the double nearest to a positive
    number: the significand has 53 bits, and the exponent is -1074 at
    least (the subnormal numbers). *)
Definition exponent (q : Q) : Z := Z.max (ilog2 q - 52) (-1074).

(** The double nearest to a positive number. *)
Definition nearest (q : Q) : Q :=
  (inject_Z (round_half_even (q / pow2 (exponent q))) * pow2 (exponent q))%Q.

(** The double nearest to a number, halves to the even significand. *)
Definition double (q : Q) : Q :=
  match Qcompare q 0 with
  | Eq => 0%Q
  | Gt => Qred (nearest q)
  | Lt => Qred (- nearest (- q))
  end.

(** [x * y] *)
Definition times (x y : Q) : Q := double (double x * double y).

(** [x / y], for a divisor that is not zero. *)
Definition divided (x y : Q) : Q := double (double x / double y).

(** [Math.round(x)]: the nearest integer, halves rounded up. *)
Definition Math_round (x : Q) : Z := Qfloor (x + (1 # 2)).

(** [`${n}`] for an integer [n]. *)
Definition toString (n : Z) : string := NilZero.string_of_int (Z.to_int n).

(** [x || d] for a nullable number: [null] and [0] are falsy. *)
Definition or_number (x : option Z) (d : Z) : Z :=
  match x with
  | Some n => if (n =? 0)%Z then d else n
  | None => d
  end.

(** [x || d] for a nullable string: [null] and the empty string are
    falsy. *)
Definition or_string (x : option string) (d : string) : string :=
  match x with
  | Some EmptyString => d
  | Some s => s
  | None => d
  end.

(** [x || d] for a nullable array: only [null] is falsy. *)
Definition or_array {A : Type} (x : option (list A)) (d : list A) : list A :=
  match x with
  | Some l => l
  | None => d
  end.

(** [Array.prototype.sort(cmp)].  The sort is stable (ECMAScript 2019);
    [cmp a b < 0] puts [a] first.  Stable insertion: an element is put in
    front of the first element of the sorted tail that does not have to
    precede it. *)
Section Sort.
Context {A : Type} (cmp : A -> A -> Z).

Fixpoint insert (x : A) (l : list A) : list A :=
  match l with
  | [] => [x]
  | y :: l' => if (cmp x y <=? 0)%Z then x :: y :: l' else y :: insert x l'
  end.

Fixpoint sort (l : list A) : list A :=
  match l with
  | [] => []
  | x :: l' => insert x (sort l')
  end.

End Sort.

(** [a.filter(Boolean)] on an array of objects and [null]s. *)
Fixpoint filter_Boolean {A : Type} (l : list (option A)) : list A :=
  match l with
  | [] => []
  | Some x :: l' => x :: filter_Boolean l'
  | None :: l' => filter_Boolean l'
  end.

(** [a.map(f)] where [f] may throw: the first exception aborts the map. *)
Fixpoint map_throwing {A B : Type} (f : A -> option B) (l : list A)
  : option (list B) :=
  match l with
  | [] => Some []
  | x :: l' =>
      match f x with
      | None => None
      | Some y =>
          match map_throwing f l' with
          | None => None
          | Some ys => Some (y :: ys)
          end
      end
  end.

(** The values [NextResponse.json] serialises. *)
#[local] Unset Elimination Schemes.
Inductive JSON : Type :=
| JNull
| JBool (b : bool)
| JNum (q : Q)
| JStr (s : string)
| JArr (l : list JSON)
| JObj (fields : list (string * JSON)).
#[local] Set Elimination Schemes.

Definition JInt (z : Z) : JSON := JNum (inject_Z z).

Definition nullable {A : Type} (f : A -> JSON) (x : option A) : JSON :=
  match x with
  | Some a => f a
  | None => JNull
  end.

(** [Object.keys(j)]: the names of the members of an object, in their
    order; a value that is not an object has none. *)
Definition keys (j : JSON) : list string :=
  match j with
  | JObj fields => map fst fields
  | _ => []
  end.

(** [j[k]] for an object [j]. *)
Definition member (k : string) (j : JSON) : option JSON :=
  match j with
  | JObj fields =>
      match find (fun f => fst f =? k) fields with
      | Some f => Some (snd f)
      | None => None
      end
  | _ => None
  end.

Definition JStrs (l : list string) : JSON := JArr (map JStr l).
Definition JNums (l : list Q) : JSON := JArr (map JNum l).

End JS.

(** ** The rows of the three tables ([Database] in [lib/supabase.ts]) *)

Module Schema.

Record JobDescription := {
  jd_id : string;
  jd_title : string;
  jd_description : string;
  jd_requirements : option string;
  jd_skills : option (list string);
  jd_experience_level : option string;
  jd_location : option string;
  jd_salary_range : option string;
  jd_embedding : option (list Q);
  jd_created_at : string;
  jd_updated_at : string
}.

Record Resume := {
  id : string;
  file_name : string;
  candidate_name : option string;
  email : option string;
  phone : option string;
  experience_years : option Z;
  skills : option (list string);
  education : option string;
  raw_text : string;
  parsed_data : option JS.JSON;
  embedding : option (list Q);
  uploaded_at : string
}.

(** A row of [match_results].  The surrogate [id] and [created_at] are
    assigned by the store on every insert and are not part of the match
    result; [is_shortlisted] takes its default [FALSE] on insert. *)
Record MatchRow := {
  job_description_id : string;
  resume_id : string;
  mr_similarity_score : Q;
  mr_matched_skills : list string;
  mr_highlights : list string;
  is_shortlisted : bool
}.

Record DB := {
  job_descriptions : list JobDescription;
  resumes : list Resume;
  match_results : list MatchRow
}.

Definition with_match_results (db : DB) (rows : list MatchRow) : DB :=
  {| job_descriptions := job_descriptions db;
     resumes := resumes db;
     match_results := rows |}.

(** The key of [UNIQUE(job_description_id, resume_id)]. *)
Definition key (m : MatchRow) : string * string :=
  (job_description_id m, resume_id m).

Definition key_eqb (k1 k2 : string * string) : bool :=
  (fst k1 =? fst k2) && (snd k1 =? snd k2).

Fixpoint distinct (ks : list (string * string)) : bool :=
  match ks with
  | [] => true
  | k :: ks' => negb (existsb (key_eqb k) ks') && distinct ks'
  end.

End Schema.

(** ** The store client and the Python backend, as seen by the handler *)

Module Store.
Import Schema.

(** One element of [backendData.results]. *)
Record BackendResult := {
  br_resume_id : string;
  br_candidate_name : option string;
  br_email : option string;
  br_file_name : option string;
  br_experience_years : option Z;
  br_skills : option (list string);
  br_education : option string;
  br_similarity_score : Q;
  br_matched_skills : list string;
  br_highlights : list string
}.

(** The body of an OK reply of [POST http://localhost:8000/match];
    [results] is absent when the body has no such member. *)
Record BackendData := {
  success : bool;
  message : option string;
  results : option (list BackendResult)
}.

Inductive BackendReply :=
| BackendThrows            (* [fetch] rejects, or the body is not JSON *)
| BackendNotOk             (* [backendResponse.ok] is false *)
| BackendOk (backendData : BackendData).

(** What the handler cannot control in one request: the faults of the
    store and the reply of the backend. *)
Record Env := {
  jd_query_fails : bool;
  resumes_query_error : option string;
  delete_fails : bool;
  insert_fault : option string;
  backend : BackendReply
}.

(** [.from("job_descriptions").select("*").eq("id", i).single()]: the row,
    or an error when the query fails or does not select exactly one row. *)
Definition select_job_description (env : Env) (db : DB) (i : string)
  : option JobDescription :=
  if jd_query_fails env then None
  else match filter (fun j => jd_id j =? i) (job_descriptions db) with
       | [j] => Some j
       | _ => None
       end.

(** [.from("resumes").select("*")]: the error message, or every row. *)
Definition select_resumes (env : Env) (db : DB) : string + list Resume :=
  match resumes_query_error env with
  | Some e => inl e
  | None => inr (resumes db)
  end.

(** [.from("match_results").delete().eq("job_description_id", i)]; the
    handler does not look at the result. *)
Definition delete_match_results (env : Env) (db : DB) (i : string) : DB :=
  if delete_fails env then db
  else with_match_results db
         (filter (fun m => negb (job_description_id m =? i)) (match_results db)).

(** The constraints of the [match_results] table that an insert of [rows]
    can violate: [UNIQUE(job_description_id, resume_id)] and the two
    foreign keys. *)
Definition unique_ok (db : DB) (rows : list MatchRow) : bool :=
  distinct (map key rows) &&
  forallb (fun r => negb (existsb (key_eqb (key r)) (map key (match_results db))))
          rows.

Definition foreign_keys_ok (db : DB) (rows : list MatchRow) : bool :=
  forallb (fun r =>
             existsb (fun j => jd_id j =? job_description_id r) (job_descriptions db) &&
             existsb (fun c => id c =? resume_id r) (resumes db))
          rows.

(** [.from("match_results").insert(rows)]: one statement, all rows or
    none; the error, if any, and the store afterwards. *)
Definition insert_match_results (env : Env) (db : DB) (rows : list MatchRow)
  : option string * DB :=
  match insert_fault env with
  | Some e => (Some e, db)
  | None =>
      if negb (unique_ok db rows) then
        (Some "duplicate key value violates unique constraint", db)
      else if negb (foreign_keys_ok db rows) then
        (Some "insert violates foreign key constraint", db)
      else (None, with_match_results db (match_results db ++ rows))
  end.

End Store.

(** ** The handler *)

Module Route.
Import JS Schema Store.

(** The object the fallback builds for one resume. *)
Record MatchResult := {
  resume : Resume;
  similarity_score : Z;
  matched_skills : list string;
  highlights : list string
}.

Record Response := {
  status : Z;
  body : JSON
}.

Inductive LogEntry :=
| console_warn (msg : string)
| console_error (msg : string).

(** What a request leaves behind: the response, the store, and the lines
    written to the server console. *)
Record Outcome := {
  response : Response;
  store : DB;
  log : list LogEntry
}.

(** [NextResponse.json({ error: msg }, { status })] *)
Definition json_error (st : Z) (msg : string) : Response :=
  {| status := st; body := JObj [("error", JStr msg)] |}.

(** [NextResponse.json(value)] *)
Definition json_ok (value : JSON) : Response :=
  {| status := 200; body := value |}.

(** The [catch] clause of the handler. *)
Definition caught (db : DB) (written : list LogEntry) : Outcome :=
  {| response := json_error 500 "Failed to perform matching";
     store := db;
     log := written ++ [console_error "Error performing matching:"] |}.

(** [Math.round(similarity * 100)] *)
Definition score (similarity : Q) : Z := Math_round (times similarity 100).

(** The [matchedSkills] of a resume: the filter of [resumeSkills] by the
    containment test against some element of [jdSkills]. *)
Definition matchedSkills {cm : CaseMapping} (jdSkills resumeSkills : list string)
  : list string :=
  filter (fun skill =>
            existsb (fun jdSkill =>
                       includes (toLowerCase jdSkill) (toLowerCase skill) ||
                       includes (toLowerCase skill) (toLowerCase jdSkill))
                    jdSkills)
         resumeSkills.

(** The [highlights] array literal. *)
Definition highlightsOf (r : Resume) (matched : list string) : list string :=
  [ (toString (or_number (experience_years r) 0) ++ " years of experience")%string;
    (toString (Z.of_nat (List.length matched)) ++ " matching skills")%string;
    or_string (education r) "Education not specified" ].

Definition resume_json (r : Resume) : JSON :=
  JObj [ ("id", JStr (id r));
         ("file_name", JStr (file_name r));
         ("candidate_name", nullable JStr (candidate_name r));
         ("email", nullable JStr (email r));
         ("phone", nullable JStr (phone r));
         ("experience_years", nullable JInt (experience_years r));
         ("skills", nullable JStrs (skills r));
         ("education", nullable JStr (education r));
         ("raw_text", JStr (raw_text r));
         ("parsed_data", nullable (fun j => j) (parsed_data r));
         ("embedding", nullable JNums (embedding r));
         ("uploaded_at", JStr (uploaded_at r)) ].

Definition matchResult_json (m : MatchResult) : JSON :=
  JObj [ ("resume", resume_json (resume m));
         ("similarity_score", JInt (similarity_score m));
         ("matched_skills", JStrs (matched_skills m));
         ("highlights", JStrs (highlights m)) ].

(** One element of [formattedResults]. *)
Definition formattedResult (result : BackendResult) : JSON :=
  JObj [ ("resume",
          JObj [ ("id", JStr (br_resume_id result));
                 ("candidate_name", nullable JStr (br_candidate_name result));
                 ("email", nullable JStr (br_email result));
                 ("file_name", nullable JStr (br_file_name result));
                 ("experience_years", nullable JInt (br_experience_years result));
                 ("skills", nullable JStrs (br_skills result));
                 ("education", nullable JStr (br_education result)) ]);
         ("similarity_score", JNum (br_similarity_score result));
         ("matched_skills", JStrs (br_matched_skills result));
         ("highlights", JStrs (br_highlights result)) ].

(** The comparator of the ranking: [(a, b) => b.similarity_score -
    a.similarity_score]. *)
Definition by_score_desc (a b : MatchResult) : Z :=
  similarity_score b - similarity_score a.

(** The rows to insert for the fallback's results. *)
Definition matchInserts (jobDescriptionId : string) (matchResults : list MatchResult)
  : list MatchRow :=
  map (fun result =>
         {| job_description_id := jobDescriptionId;
            resume_id := id (resume result);
            mr_similarity_score := divided (inject_Z (similarity_score result)) 100;
            mr_matched_skills := matched_skills result;
            mr_highlights := highlights result;
            is_shortlisted := false |})
      matchResults.

(** The rows to insert for the backend's results. *)
Definition backendInserts (jobDescriptionId : string) (rs : list BackendResult)
  : list MatchRow :=
  map (fun result =>
         {| job_description_id := jobDescriptionId;
            resume_id := br_resume_id result;
            mr_similarity_score := divided (br_similarity_score result) 100;
            mr_matched_skills := br_matched_skills result;
            mr_highlights := br_highlights result;
            is_shortlisted := false |})
      rs.

(** Delete the matches of the job description, insert the new ones, log an
    insert error, and answer with [answer] whatever the store did. *)
Definition replace_matches (env : Env) (db : DB) (jobDescriptionId : string)
  (inserts : list MatchRow) (written : list LogEntry) (answer : JSON) : Outcome :=
  let db1 := delete_match_results env db jobDescriptionId in
  let (insertError, db2) := insert_match_results env db1 inserts in
  {| response := json_ok answer;
     store := db2;
     log := written ++
            match insertError with
            | Some _ => [console_error "Error storing match results:"]
            | None => []
            end |}.

Section WithCosine.

Context {cm : CaseMapping}.

(** [cosineSimilarity] of the [ai] package, which is not part of this
    repository: the similarity of two vectors, or [None] when the call
    throws. *)
Variable cosineSimilarity : list Q -> list Q -> option Q.

(** The callback mapped over [resumes]: [null] for a pair without both
    embeddings, the match result otherwise. *)
Definition matchResult (jobDescription : JobDescription) (r : Resume)
  : option (option MatchResult) :=
  match jd_embedding jobDescription, embedding r with
  | Some je, Some re =>
      match cosineSimilarity je re with
      | None => None
      | Some similarity =>
          let jdSkills := or_array (jd_skills jobDescription) [] in
          let resumeSkills := or_array (skills r) [] in
          let matched := matchedSkills jdSkills resumeSkills in
          Some (Some {| resume := r;
                        similarity_score := score similarity;
                        matched_skills := matched;
                        highlights := highlightsOf r matched |})
      end
  | _, _ => Some None
  end.

(** [resumes.map(...).filter(Boolean).sort(...)] *)
Definition matchResults (jobDescription : JobDescription) (rs : list Resume)
  : option (list MatchResult) :=
  match map_throwing (matchResult jobDescription) rs with
  | None => None
  | Some l => Some (sort by_score_desc (filter_Boolean l))
  end.

Definition backend_warning : LogEntry :=
  console_warn "Backend not available, using frontend matching".

(** The branch taken when the backend answers with a status that is not
    OK. *)
Definition fallback (env : Env) (db : DB) (jobDescriptionId : string)
  (jobDescription : JobDescription) (rs : list Resume) : Outcome :=
  match matchResults jobDescription rs with
  | None => caught db [backend_warning]
  | Some ms =>
      replace_matches env db jobDescriptionId
        (matchInserts jobDescriptionId ms)
        [backend_warning]
        (JArr (map matchResult_json ms))
  end.

(** The branch taken when the backend answers OK. *)
Definition use_backend (env : Env) (db : DB) (jobDescriptionId : string)
  (backendData : BackendData) : Outcome :=
  if negb (success backendData) then
    {| response := json_error 500 (or_string (message backendData) "Matching failed");
       store := db;
       log := [] |}
  else
    match results backendData with
    | None => caught db []
    | Some rs =>
        replace_matches env db jobDescriptionId
          (backendInserts jobDescriptionId rs)
          []
          (JArr (map formattedResult rs))
    end.

(** The handler, for a request body [{ jobDescriptionId }]. *)
Definition POST (env : Env) (db : DB) (jobDescriptionId : string) : Outcome :=
  match select_job_description env db jobDescriptionId with
  | None =>
      {| response := json_error 404 "Job description not found";
         store := db;
         log := [] |}
  | Some jobDescription =>
      match select_resumes env db with
      | inl msg =>
          {| response := json_error 500 msg; store := db; log := [] |}
      | inr rs =>
          match backend env with
          | BackendThrows => caught db []
          | BackendNotOk => fallback env db jobDescriptionId jobDescription rs
          | BackendOk backendData => use_backend env db jobDescriptionId backendData
          end
      end
  end.

End WithCosine.

End Route.

(** ** Sample data *)

Module Sample.
Import JS Schema Store Route.

Definition dot (u v : list Q) : Q :=
  fold_left Qplus (map (fun p => fst p * snd p) (combine u v)) 0.

(** The square root of a rational that is a square; the root of the
    nearest smaller square of that denominator otherwise. *)
Definition Qsqrt (q : Q) : Q :=
  Z.sqrt (Qnum q * Zpos (Qden q)) # Qden q.

(** A cosine similarity for the sample data: it throws on vectors of
    different lengths, is 0 when a vector is all zero, and is the dot
    product over the product of the norms otherwise.  It is exact on
    vectors whose squared norm is the square of a rational, and the
    samples below use no other vectors. *)
Definition cosine (u v : list Q) : option Q :=
  if negb (List.length u =? List.length v)%nat then None
  else if Qeq_bool (dot u u) 0 || Qeq_bool (dot v v) 0 then Some 0
  else Some (Qred (dot u v / (Qsqrt (dot u u) * Qsqrt (dot v v)))).

(** The second byte of the UTF-8 encoding of a letter from À to Þ, the
    first being 195: a byte from 128 to 158 other than 151, which encodes
    the sign of multiplication. *)
Definition latin_upper (b : ascii) : bool :=
  let n := nat_of_ascii b in
  ((128 <=? n) && (n <=? 158) && negb (n =? 151))%nat.

(** A case mapping for the samples: the letters A..Z and the letters À..Þ
    of Latin-1 are lowered, every other byte is kept.  It is the mapping
    of the runtime on the strings that have no other upper-case letter, as
    the strings of the samples. *)
Fixpoint lower (s : string) : string :=
  match s with
  | EmptyString => EmptyString
  | String a t =>
      if (nat_of_ascii a =? 195)%nat then
        match t with
        | String b s' =>
            if latin_upper b
            then String a (String (ascii_of_nat (nat_of_ascii b + 32)) (lower s'))
            else String a (lower t)
        | EmptyString => String a EmptyString
        end
      else String (lower_ascii a) (lower t)
  end.

#[global] Instance sample_case : CaseMapping :=
  {| toLowerCase := lower; toLowerCase_empty := eq_refl |}.

(** The letters É and é, in UTF-8. *)
Definition E_acute : string := String (ascii_of_nat 195) (String (ascii_of_nat 137) "").
Definition e_acute : string := String (ascii_of_nat 195) (String (ascii_of_nat 169) "").

Definition jd (i : string) (sk : option (list string)) (e : option (list Q))
  : JobDescription :=
  {| jd_id := i; jd_title := "Backend Engineer";
     jd_description := "Requires Python, SQL, AWS.";
     jd_requirements := None; jd_skills := sk; jd_experience_level := None;
     jd_location := None; jd_salary_range := None; jd_embedding := e;
     jd_created_at := "2025-01-01T00:00:00Z";
     jd_updated_at := "2025-01-01T00:00:00Z" |}.

Definition cv (i : string) (years : option Z) (sk : option (list string))
  (edu : option string) (e : option (list Q)) : Resume :=
  {| id := i; file_name := (i ++ ".pdf")%string; candidate_name := None;
     email := None; phone := None; experience_years := years; skills := sk;
     education := edu; raw_text := "resume"; parsed_data := None;
     embedding := e; uploaded_at := "2025-01-02T00:00:00Z" |}.

(** No store fault; the backend answers with a status that is not OK. *)
Definition backend_down : Env :=
  {| jd_query_fails := false; resumes_query_error := None;
     delete_fails := false; insert_fault := None; backend := BackendNotOk |}.

(** No store fault; the backend answers OK with [rs]. *)
Definition backend_up (rs : list BackendResult) : Env :=
  {| jd_query_fails := false; resumes_query_error := None;
     delete_fails := false; insert_fault := None;
     backend := BackendOk {| success := true; message := None; results := Some rs |} |}.

(** As [backend_down], and the insert into [match_results] fails. *)
Definition insert_down : Env :=
  {| jd_query_fails := false; resumes_query_error := None;
     delete_fails := false; insert_fault := Some "connection closed";
     backend := BackendNotOk |}.

Definition the_jd : JobDescription := jd "jd-1" (Some ["Python"]) (Some [1; 0]).

Definition ann : Resume :=
  cv "r-a" (Some 6%Z) (Some ["Python"; "python"; "SQL"]) None (Some [3 # 5; 4 # 5]).
Definition bob : Resume :=
  cv "r-b" None (Some ["SQL"]) (Some "Bachelor's") (Some [3 # 5; - (4 # 5)]).
Definition cat : Resume :=
  cv "r-c" (Some 2%Z) (Some ["Docker"]) None (Some [- (1); 0]).
Definition dan : Resume :=
  cv "r-d" (Some 9%Z) (Some ["Python"]) (Some "PhD") None.

Definition db_of (rs : list Resume) (rows : list MatchRow) : DB :=
  {| job_descriptions := [the_jd]; resumes := rs; match_results := rows |}.

Definition pool : list Resume := [bob; ann; cat; dan].

(** Rows left by earlier requests: one of [the_jd], one of another job
    description. *)
Definition stale : list MatchRow :=
  [ {| job_description_id := "jd-1"; resume_id := "r-d";
       mr_similarity_score := 1 # 2; mr_matched_skills := ["Python"];
       mr_highlights := []; is_shortlisted := true |};
    {| job_description_id := "jd-9"; resume_id := "r-a";
       mr_similarity_score := 1 # 4; mr_matched_skills := [];
       mr_highlights := []; is_shortlisted := false |} ].

(** A result of the backend for the resume [i], with the score [s]. *)
Definition from_backend (i : string) (s : Q) : BackendResult :=
  {| br_resume_id := i; br_candidate_name := None; br_email := None;
     br_file_name := Some (i ++ ".pdf")%string; br_experience_years := None;
     br_skills := None; br_education := None; br_similarity_score := s;
     br_matched_skills := ["Python"]; br_highlights := [] |}.


(** The ranking of [pool] against [the_jd]. *)
Definition ranked : list MatchResult :=
  Eval vm_compute in
    match matchResults cosine the_jd pool with
    | Some ms => ms
    | None => []
    end.

End Sample.

(** ** Notions of the specification *)

Module Spec.
Import JS Schema Store Route.

(** [t] is a substring of [s]. *)
Definition Substring (t s : string) : Prop :=
  exists pre post, s = (pre ++ t ++ post)%string.

(** [l1] is [l2] with some elements removed, the others in their order. *)
Inductive Subseq {A : Type} : list A -> list A -> Prop :=
| Subseq_nil : Subseq [] []
| Subseq_keep x l1 l2 : Subseq l1 l2 -> Subseq (x :: l1) (x :: l2)
| Subseq_drop x l1 l2 : Subseq l1 l2 -> Subseq l1 (x :: l2).

(** The bidirectional, case-insensitive containment of the skill
    matcher. *)
Definition Contained {cm : CaseMapping} (skill jdSkill : string) : Prop :=
  Substring (toLowerCase skill) (toLowerCase jdSkill) \/
  Substring (toLowerCase jdSkill) (toLowerCase skill).


(** Results in descending order of score. *)
Definition descending : list MatchResult -> Prop :=
  StronglySorted (fun a b => (similarity_score a >= similarity_score b)%Z).

Definition has_score (s : Z) (m : MatchResult) : bool :=
  (similarity_score m =? s)%Z.

(** The similarity of the job description and the resume, when there is
    one, is a cosine: it lies between -1 and 1. *)
Definition cosine_in_range (cosineSimilarity : list Q -> list Q -> option Q)
  (jd : JobDescription) (r : Resume) : Prop :=
  forall je re c,
    jd_embedding jd = Some je -> embedding r = Some re ->
    cosineSimilarity je re = Some c -> -1 <= c <= 1.

(** The score of a result is the cosine similarity of its two embeddings,
    multiplied by 100 in the doubles and rounded to the nearest integer. *)
Definition rounded_cosine (cosineSimilarity : list Q -> list Q -> option Q)
  (jd : JobDescription) (m : MatchResult) : Prop :=
  exists je re c,
    jd_embedding jd = Some je /\ embedding (resume m) = Some re /\
    cosineSimilarity je re = Some c /\
    similarity_score m = Math_round (times c 100) /\
    (-100 <= similarity_score m <= 100)%Z /\
    (0 <= c -> (0 <= similarity_score m <= 100)%Z).

(** The rows of the other job descriptions. *)
Definition others (jid : string) (rows : list MatchRow) : list MatchRow :=
  filter (fun m => negb (job_description_id m =? jid)) rows.

Definition all_of (jid : string) (rows : list MatchRow) : Prop :=
  Forall (fun m => job_description_id m = jid) rows.

(** The store after the delete and the insert of [ins]. *)
Definition store_after (env : Env) (db : DB) (jid : string)
  (ins : list MatchRow) : DB :=
  snd (insert_match_results env (delete_match_results env db jid) ins).

(** The insert of [ins] goes through, once the rows of the job description
    are deleted. *)
Definition accepted (env : Env) (db : DB) (ins : list MatchRow) : bool :=
  match insert_fault env with
  | Some _ => false
  | None => distinct (map key ins) && foreign_keys_ok db ins
  end.

(** The row of the fresh set for a result of the fallback: the pair of the
    job description and the resume, the score as a fraction of 1, the
    matched skills and the highlights; it is not shortlisted. *)
Definition row_of_result (jid : string) (m : MatchResult) : MatchRow :=
  {| job_description_id := jid;
     resume_id := id (resume m);
     mr_similarity_score := divided (inject_Z (similarity_score m)) 100;
     mr_matched_skills := matched_skills m;
     mr_highlights := highlights m;
     is_shortlisted := false |}.

(** The row of the fresh set for a result of the backend. *)
Definition row_of_backend (jid : string) (r : BackendResult) : MatchRow :=
  {| job_description_id := jid;
     resume_id := br_resume_id r;
     mr_similarity_score := divided (br_similarity_score r) 100;
     mr_matched_skills := br_matched_skills r;
     mr_highlights := br_highlights r;
     is_shortlisted := false |}.

(** The fresh set of a request: one row for each result that the fallback
    computed or the backend returned, in the order of the results; [None]
    when the request answers before it writes. *)
Definition planned {cm : CaseMapping} (cosineSimilarity : list Q -> list Q -> option Q)
  (env : Env) (db : DB) (jid : string) : option (list MatchRow) :=
  match select_job_description env db jid with
  | None => None
  | Some jd =>
      match select_resumes env db with
      | inl _ => None
      | inr rs =>
          match backend env with
          | BackendThrows => None
          | BackendNotOk =>
              option_map (map (row_of_result jid))
                         (matchResults cosineSimilarity jd rs)
          | BackendOk data =>
              if negb (success data) then None
              else option_map (map (row_of_backend jid)) (results data)
          end
      end
  end.



(** The members of a result of the response, of the resume of a result of
    the fallback (the columns of [resumes]) and of the resume of a result
    of the backend. *)
Definition result_members : list string :=
  ["resume"; "similarity_score"; "matched_skills"; "highlights"].

Definition resume_columns : list string :=
  ["id"; "file_name"; "candidate_name"; "email"; "phone"; "experience_years";
   "skills"; "education"; "raw_text"; "parsed_data"; "embedding"; "uploaded_at"].

Definition backend_members : list string :=
  ["id"; "candidate_name"; "email"; "file_name"; "experience_years"; "skills";
   "education"].

(** A result of the response has the four members of a result and no
    other, and its resume the members [cols] and no other: no member is
    there for a tag of the strategy. *)
Definition untagged (cols : list string) (item : JSON) : Prop :=
  keys item = result_members /\
  exists r, member "resume" item = Some r /\ keys r = cols.


Definition storing_error : LogEntry :=
  console_error "Error storing match results:".


End Spec.

(** ** The routes that write the documents *)

Module Ingest.
Import JS Schema Store Route.

(** [`${x}`] for a nullable string. *)
Definition template (x : option string) : string :=
  match x with
  | Some s => s
  | None => "null"
  end.

(** [a.join(sep)] for an array of strings. *)
Fixpoint join (sep : string) (a : list string) : string :=
  match a with
  | [] => ""
  | [x] => x
  | x :: a' => (x ++ sep ++ join sep a')%string
  end.

(** The member [resume] of the reply of [POST /upload-resume]. *)
Record ResumeData := {
  rd_file_name : string;
  rd_candidate_name : option string;
  rd_email : option string;
  rd_phone : option string;
  rd_experience_years : option Z;
  rd_skills : option (list string);
  rd_education : option string;
  rd_raw_text : string
}.

Inductive UploadReply :=
| UploadThrows           (* [fetch] rejects, or the body has no [resume] *)
| UploadNotOk            (* [backendResponse.ok] is false *)
| UploadOk (resumeData : ResumeData).

(** The answer of [.insert(row).select().single()]: an error, or the id and
    the time stamps that the store gives to the row. *)
Inductive InsertReply :=
| InsertError (msg : string)
| Inserted (new_id : string) (now : string).

(** A file of the form, with what the backend and the store answer for
    it. *)
Record Upload := {
  file : string;
  backend_reply : UploadReply;
  insert_reply : InsertReply
}.

(** The body of [POST /api/job-descriptions]. *)
Record JobBody := {
  title : string;
  description : string;
  requirements : option string;
  body_skills : option (list string);
  experience_level : option string;
  location : option string;
  salary_range : option string
}.

Definition job_json (j : JobDescription) : JSON :=
  JObj [ ("id", JStr (jd_id j));
         ("title", JStr (jd_title j));
         ("description", JStr (jd_description j));
         ("requirements", nullable JStr (jd_requirements j));
         ("skills", nullable JStrs (jd_skills j));
         ("experience_level", nullable JStr (jd_experience_level j));
         ("location", nullable JStr (jd_location j));
         ("salary_range", nullable JStr (jd_salary_range j));
         ("embedding", nullable JNums (jd_embedding j));
         ("created_at", JStr (jd_created_at j));
         ("updated_at", JStr (jd_updated_at j)) ].

(** The text embedded for a resume; [skills.join] throws when [skills] is
    [null]. *)
Definition resume_text (rd : ResumeData) : option string :=
  match rd_skills rd with
  | None => None
  | Some sk =>
      Some (template (rd_candidate_name rd) ++ " " ++ rd_raw_text rd ++ " "
            ++ join " " sk ++ " " ++ template (rd_education rd))%string
  end.

(** The text embedded for a job description. *)
Definition job_text (b : JobBody) : string :=
  (title b ++ " " ++ description b ++ " "
   ++ or_string (requirements b) "" ++ " "
   ++ or_string (option_map (join " ") (body_skills b)) "")%string.

(** The row inserted for a resume. *)
Definition resume_row (rd : ResumeData) (e : list Q) (new_id now : string)
  : Resume :=
  {| id := new_id;
     file_name := rd_file_name rd;
     candidate_name := rd_candidate_name rd;
     email := rd_email rd;
     phone := rd_phone rd;
     experience_years := rd_experience_years rd;
     skills := rd_skills rd;
     education := rd_education rd;
     raw_text := rd_raw_text rd;
     parsed_data :=
       Some (JObj [ ("candidate_name", nullable JStr (rd_candidate_name rd));
                    ("email", nullable JStr (rd_email rd));
                    ("phone", nullable JStr (rd_phone rd));
                    ("experience_years", nullable JInt (rd_experience_years rd));
                    ("skills", nullable JStrs (rd_skills rd));
                    ("education", nullable JStr (rd_education rd)) ]);
     embedding := Some e;
     uploaded_at := now |}.

(** The row inserted for a job description. *)
Definition job_row (b : JobBody) (e : list Q) (new_id now : string)
  : JobDescription :=
  {| jd_id := new_id;
     jd_title := title b;
     jd_description := description b;
     jd_requirements := requirements b;
     jd_skills := body_skills b;
     jd_experience_level := experience_level b;
     jd_location := location b;
     jd_salary_range := salary_range b;
     jd_embedding := Some e;
     jd_created_at := now;
     jd_updated_at := now |}.

Definition add_resume (db : DB) (r : Resume) : DB :=
  {| job_descriptions := job_descriptions db;
     resumes := resumes db ++ [r];
     match_results := match_results db |}.

Definition add_job (db : DB) (j : JobDescription) : DB :=
  {| job_descriptions := job_descriptions db ++ [j];
     resumes := resumes db;
     match_results := match_results db |}.

(** The state of the loop over the files: the store, the array [results]
    and the console. *)
Record Progress := {
  p_store : DB;
  p_results : list Resume;
  p_log : list LogEntry
}.

Section WithEmbed.

(** [embed] of the [ai] package with the OpenAI model, which is not part of
    this repository: the embedding of a text, or [None] when the call
    throws. *)
Variable embed : string -> option (list Q).

(** The body of the loop for one file: the state after it, or [None] when
    it throws. *)
Definition upload_one (u : Upload) (st : Progress) : option Progress :=
  match backend_reply u with
  | UploadThrows => None
  | UploadNotOk =>
      Some {| p_store := p_store st;
              p_results := p_results st;
              p_log := p_log st ++
                       [console_error ("Error processing " ++ file u ++ ":")] |}
  | UploadOk resumeData =>
      match resume_text resumeData with
      | None => None
      | Some text =>
          match embed text with
          | None => None
          | Some e =>
              match insert_reply u with
              | InsertError _ =>
                  Some {| p_store := p_store st;
                          p_results := p_results st;
                          p_log := p_log st ++
                                   [console_error "Error inserting resume:"] |}
              | Inserted new_id now =>
                  let data := resume_row resumeData e new_id now in
                  Some {| p_store := add_resume (p_store st) data;
                          p_results := p_results st ++ [data];
                          p_log := p_log st |}
              end
          end
      end
  end.

(** [for (const file of files) { ... }]: the state when the loop ends, and
    whether it ended by an exception. *)
Fixpoint upload_loop (files : list Upload) (st : Progress) : Progress * bool :=
  match files with
  | [] => (st, false)
  | u :: files' =>
      match upload_one u st with
      | None => (st, true)
      | Some st' => upload_loop files' st'
      end
  end.

(** [POST /api/resumes], for a form with [files]. *)
Definition POST_resumes (files : list Upload) (db : DB) : Outcome :=
  let (st, threw) :=
    upload_loop files {| p_store := db; p_results := []; p_log := [] |} in
  if threw then
    {| response := json_error 500 "Failed to process resumes";
       store := p_store st;
       log := p_log st ++ [console_error "Error processing resumes:"] |}
  else
    {| response := json_ok (JArr (map resume_json (p_results st)));
       store := p_store st;
       log := p_log st |}.

(** [POST /api/job-descriptions], for a body [b] and the answer [reply] of
    the store to the insert. *)
Definition POST_job_descriptions (b : JobBody) (reply : InsertReply) (db : DB)
  : Outcome :=
  match embed (job_text b) with
  | None =>
      {| response := json_error 500 "Failed to create job description";
         store := db;
         log := [console_error "Error creating job description:"] |}
  | Some e =>
      match reply with
      | InsertError msg =>
          {| response := json_error 500 msg; store := db; log := [] |}
      | Inserted new_id now =>
          let data := job_row b e new_id now in
          {| response := json_ok (job_json data);
             store := add_job db data;
             log := [] |}
      end
  end.

End WithEmbed.

(** The row that the loop stores for a file, when it stores one. *)
Definition stored_row (embed : string -> option (list Q)) (u : Upload)
  : option Resume :=
  match backend_reply u, insert_reply u with
  | UploadOk rd, Inserted new_id now =>
      match resume_text rd with
      | Some text =>
          match embed text with
          | Some e => Some (resume_row rd e new_id now)
          | None => None
          end
      | None => None
      end
  | _, _ => None
  end.

(** The loop body throws for the file. *)
Definition throws (embed : string -> option (list Q)) (u : Upload) : bool :=
  match backend_reply u with
  | UploadThrows => true
  | UploadNotOk => false
  | UploadOk rd =>
      match resume_text rd with
      | None => true
      | Some text =>
          match embed text with
          | None => true
          | Some _ => false
          end
      end
  end.

End Ingest.

(** ** The pages *)

Module Pages.
Import JS Route Ingest.

(** *** The page of the resume upload *)

(** A [File] of the browser. *)
Record File := {
  name : string;
  size : Z
}.

(** [a.filter((x, i) => p(x, i))], the index of the first element being
    [i]. *)
Fixpoint filter_index {A : Type} (p : A -> nat -> bool) (i : nat) (a : list A)
  : list A :=
  match a with
  | [] => []
  | x :: a' =>
      if p x i then x :: filter_index p (S i) a' else filter_index p (S i) a'
  end.

(** The new [files] after the input has changed: the selection, which is
    [null] for an input without files, is put after the files in place. *)
Definition handleFileUpload (selected : option (list File)) (prev : list File)
  : list File :=
  prev ++ or_array selected [].

(** The new [files] after the button of the file at [index] is pressed. *)
Definition removeFile (index : nat) (prev : list File) : list File :=
  filter_index (fun _ i => negb (i =? index)%nat) 0 prev.

(** What the backend does with one upload: the promise of the callback is
    fulfilled, or rejected because [fetch] or [response.json()] rejects or
    the status is not OK. *)
Inductive UploadAnswer :=
| Rejects
| AnswersNotOk
| AnswersOk (body : JSON).

(** What the page does, in order. *)
Inductive Effect :=
| setIsUploading (b : bool)
| upload (f : File)
| console (entry : LogEntry)
| console_log (msg : string)
| alert (msg : string)
| push (path : string).

(** The promise returned by the callback of [files.map]. *)
Definition uploadPromise (server : File -> UploadAnswer) (f : File)
  : option JSON :=
  match server f with
  | AnswersOk body => Some body
  | _ => None
  end.

(** [handleSubmit] of the upload page: the effects of a submission of
    [files].  Every callback calls [fetch] before the first promise is
    awaited. *)
Definition handleSubmit (server : File -> UploadAnswer) (files : list File)
  : list Effect :=
  if (List.length files =? 0)%nat then []
  else
    setIsUploading true :: map upload files ++
    match map_throwing (uploadPromise server) files with
    | Some results => [console_log "Resumes uploaded:"; push "/dashboard"]
    | None => [console (console_error "Error uploading resumes:");
               alert "Failed to upload resumes. Please try again."]
    end ++ [setIsUploading false].

(** *** The page of the matching *)

(** A [Set<string>]: its elements in the order of their insertion, each
    once. *)
Definition has (s : list string) (x : string) : bool :=
  existsb (fun y => y =? x) s.

Definition add (s : list string) (x : string) : list string :=
  if has s x then s else s ++ [x].

Definition delete (s : list string) (x : string) : list string :=
  filter (fun y => negb (y =? x)) s.

(** The new [shortlisted] after the button of a resume is pressed. *)
Definition toggleShortlist (resumeId : string) (shortlisted : list string)
  : list string :=
  if has shortlisted resumeId then delete shortlisted resumeId
  else add shortlisted resumeId.

(** The [Resume] and the [MatchResult] of the page, with the members that
    the export reads. *)
Record Candidate := {
  c_id : string;
  c_name : string;
  c_email : string;
  c_experience : Q;
  c_skills : list string
}.

Record Shown := {
  shown_resume : Candidate;
  shown_score : Q
}.

Section Csv.

(** The string of a number, as [Array.prototype.join] makes it. *)
Variable Number_toString : Q -> string.

(** One line of the export for a result. *)
Definition csvRow (shortlisted : list string) (result : Shown) : string :=
  join ","
    [ c_name (shown_resume result);
      c_email (shown_resume result);
      Number_toString (shown_score result);
      Number_toString (c_experience (shown_resume result));
      join ";" (c_skills (shown_resume result));
      if has shortlisted (c_id (shown_resume result)) then "Yes" else "No" ].

Definition csvHeader : string :=
  join "," ["Name"; "Email"; "Score"; "Experience"; "Skills"; "Shortlisted"].

(** [csvContent] of [exportResults]. *)
Definition csvContent (shortlisted : list string) (matchResults : list Shown)
  : string :=
  join (String (ascii_of_nat 10) "")
       (csvHeader :: map (csvRow shortlisted) matchResults).

End Csv.

(** *** The page of the job description upload *)

(** The alternatives of the pattern of the skills, in its order. *)
Definition alternatives : list string :=
  [ "JavaScript"; "React"; "Node.js"; "Python"; "SQL"; "AWS"; "Docker";
    "TypeScript"; "MongoDB"; "PostgreSQL" ].

(** A word character of a pattern: a letter, a digit or the underscore. *)
Definition is_word (c : ascii) : bool :=
  let n := nat_of_ascii c in
  ((48 <=? n) && (n <=? 57) || (65 <=? n) && (n <=? 90) ||
   (97 <=? n) && (n <=? 122) || (n =? 95))%nat.

(** [\b] between the character before a position, if any, and the text
    from the position on. *)
Definition boundary (prev : option ascii) (rest : string) : bool :=
  xorb (match prev with Some c => is_word c | None => false end)
       (match rest with String c _ => is_word c | EmptyString => false end).

(** The literal [w], case ignored, at the head of [s]: the text matched and
    the text after it. *)
Fixpoint match_literal (w s : string) : option (string * string) :=
  match w with
  | EmptyString => Some (EmptyString, s)
  | String a w' =>
      match s with
      | EmptyString => None
      | String b s' =>
          if Ascii.eqb (lower_ascii a) (lower_ascii b) then
            match match_literal w' s' with
            | Some (m, rest) => Some (String b m, rest)
            | None => None
            end
          else None
      end
  end.

Fixpoint last_char (prev : option ascii) (m : string) : option ascii :=
  match m with
  | EmptyString => prev
  | String c m' => last_char (Some c) m'
  end.

(** The first alternative that matches at the head of [s] and ends at a
    boundary. *)
Fixpoint first_alternative (ws : list string) (prev : option ascii) (s : string)
  : option string :=
  match ws with
  | [] => None
  | w :: ws' =>
      match match_literal w s with
      | Some (m, rest) =>
          if boundary (last_char prev m) rest then Some m
          else first_alternative ws' prev s
      | None => first_alternative ws' prev s
      end
  end.

(** The match of the pattern at a position, if there is one. *)
Definition match_at (prev : option ascii) (s : string) : option string :=
  if boundary prev s then first_alternative alternatives prev s else None.

(** [text.match(/\b(?:...)\b/gi)]: the matches from a position on, [skip]
    characters of a match found earlier being still to pass. *)
Fixpoint scan (skip : nat) (prev : option ascii) (s : string) : list string :=
  match skip with
  | S k =>
      match s with
      | EmptyString => []
      | String c s' => scan k (Some c) s'
      end
  | O =>
      match match_at prev s with
      | Some m =>
          m :: match s with
               | EmptyString => []
               | String c s' => scan (String.length m - 1) (Some c) s'
               end
      | None =>
          match s with
          | EmptyString => []
          | String c s' => scan 0 (Some c) s'
          end
      end
  end.

(** [extractedSkills] of [handleSubmit]: the matches, or the empty array
    when there is none. *)
Definition extractedSkills (jobDescription : string) : list string :=
  scan 0 None jobDescription.

(** The [skills] field of the form sent to the backend. *)
Definition skillsField (jobDescription : string) : string :=
  join ", " (extractedSkills jobDescription).

End Pages.

(** ** Notions for the pages *)

Module PagesSpec.
Import JS Route Ingest Pages.

(** The file of an upload effect. *)
Definition uploaded (e : Effect) : option File :=
  match e with
  | upload f => Some f
  | _ => None
  end.

(** The occurrences of a character in a string. *)
Fixpoint occurrences (c : ascii) (s : string) : nat :=
  match s with
  | EmptyString => 0
  | String d s' => (if Ascii.eqb d c then 1 else 0) + occurrences c s'
  end.

Definition commas (s : string) : nat := occurrences "," s.

(** Every character of the string is a word character, and there is
    one. *)
Fixpoint plain_word (s : string) : bool :=
  match s with
  | EmptyString => false
  | String c EmptyString => is_word c
  | String c s' => is_word c && plain_word s'
  end.

(** Every character of the string is a word character. *)
Fixpoint all_word (s : string) : bool :=
  match s with
  | EmptyString => true
  | String c s' => is_word c && all_word s'
  end.

(** The string has no space. *)
Fixpoint spaceless (s : string) : bool :=
  match s with
  | EmptyString => true
  | String c s' => negb (Ascii.eqb c " ") && spaceless s'
  end.

(** The character before a position, if any, is not a word character. *)
Definition after_gap (prev : option ascii) : Prop :=
  match prev with
  | Some c => is_word c = false
  | None => True
  end.

(** What follows a word of a description of plain words: nothing, or a
    space. *)
Definition gap (t : string) : Prop :=
  t = EmptyString \/ exists t', t = String " " t'.

(** The string is one of the alternatives of the pattern, case ignored. *)
Definition known_skill (s : string) : bool :=
  existsb (fun w => fold_case w =? fold_case s) alternatives.

End PagesSpec.

(** ** Notions for the routes that write the documents *)

Module IngestSpec.
Import JS Schema Store Route Ingest.

(** The store with [rows] added to the resumes. *)
Definition add_resumes (db : DB) (rows : list Resume) : DB :=
  {| job_descriptions := job_descriptions db;
     resumes := resumes db ++ rows;
     match_results := match_results db |}.

(** The files that the loop goes through: those before the first one for
    which its body throws. *)
Fixpoint before_throw (embed : string -> option (list Q)) (files : list Upload)
  : list Upload :=
  match files with
  | [] => []
  | u :: files' =>
      if throws embed u then [] else u :: before_throw embed files'
  end.

(** The rows stored for [files], in their order. *)
Definition rows_of (embed : string -> option (list Q)) (files : list Upload)
  : list Resume :=
  filter_Boolean (map (stored_row embed) files).

(** No job description of the store has the id. *)
Definition fresh_job_id (db : DB) (i : string) : Prop :=
  forall j, In j (job_descriptions db) -> jd_id j <> i.

End IngestSpec.

(** ** Sample documents for the routes that write them *)

Module IngestSample.
Import JS Schema Store Route Ingest.

(** An embedding for the samples: one unit vector for the texts that
    mention Python, another for the others; it throws on a text that
    mentions Cobol. *)
Definition embed (text : string) : option (list Q) :=
  if includes text "Cobol" then None
  else if includes text "Python" then Some [1; 0]
  else Some [0; 1].

Definition data (name : string) (sk : option (list string)) (text : string)
  : ResumeData :=
  {| rd_file_name := (name ++ ".pdf")%string; rd_candidate_name := Some name;
     rd_email := None; rd_phone := None; rd_experience_years := Some 3%Z;
     rd_skills := sk; rd_education := None; rd_raw_text := text |}.

Definition eve : Upload :=
  {| file := "eve.pdf";
     backend_reply := UploadOk (data "Eve" (Some ["Python"; "SQL"]) "Python developer");
     insert_reply := Inserted "r-1" "2025-02-01T00:00:00Z" |}.

(** The backend refuses the file. *)
Definition fay : Upload :=
  {| file := "fay.exe";
     backend_reply := UploadNotOk;
     insert_reply := Inserted "r-2" "2025-02-01T00:00:01Z" |}.

(** The store refuses the row. *)
Definition gus : Upload :=
  {| file := "gus.pdf";
     backend_reply := UploadOk (data "Gus" (Some ["Go"]) "Go developer");
     insert_reply := InsertError "connection closed" |}.

Definition hal : Upload :=
  {| file := "hal.pdf";
     backend_reply := UploadOk (data "Hal" (Some ["Rust"]) "Rust developer");
     insert_reply := Inserted "r-4" "2025-02-01T00:00:03Z" |}.

(** The embedding of the text throws. *)
Definition ida : Upload :=
  {| file := "ida.pdf";
     backend_reply := UploadOk (data "Ida" (Some ["Cobol"]) "Cobol developer");
     insert_reply := Inserted "r-5" "2025-02-01T00:00:04Z" |}.

Definition posting : JobBody :=
  {| title := "Backend Engineer"; description := "Requires Python and SQL.";
     requirements := None; body_skills := Some ["Python"; "SQL"];
     experience_level := None; location := None; salary_range := None |}.

Definition empty_store : DB :=
  {| job_descriptions := []; resumes := []; match_results := [] |}.

End IngestSample.

(* ================================================================== *)
(** * Properties *)
(* ================================================================== *)

Import JS Schema Store Route Spec.

(** ** Strings *)

Lemma prefix_app (t s : string) :
  prefix t s = true <-> exists post, s = (t ++ post)%string.
Proof.
  revert s; induction t as [|c t IH]; intros s.
  - split; [intros _; now exists s | intros _; now destruct s].
  - destruct s as [|d s]; simpl;
      [split; [discriminate | intros [post H]; discriminate] |].
    destruct (ascii_dec c d) as [->|Hcd].
    + rewrite IH. split; intros [post H]; exists post.
      * now rewrite H.
      * now injection H.
    + split; [discriminate | intros [post H]; injection H; intros; congruence].
Qed.

Lemma includes_Substring (s t : string) :
  includes s t = true <-> Substring t s.
Proof.
  unfold Substring. induction s as [|c s IH]; cbn [includes].
  - rewrite orb_false_r, prefix_app. split.
    + intros [post H]. now exists EmptyString, post.
    + intros [pre [post H]]. destruct pre; [now exists post | discriminate].
  - rewrite orb_true_iff, prefix_app, IH. split.
    + intros [[post H] | [pre [post H]]].
      * now exists EmptyString, post.
      * exists (String c pre), post. simpl. now rewrite H.
    + intros [pre [post H]]. destruct pre as [|d pre]; simpl in H.
      * left. now exists post.
      * right. exists pre, post. now injection H.
Qed.

(** ** Rounding *)

Lemma Math_round_lower (a : Z) (x : Q) :
  inject_Z a <= x -> (a <= Math_round x)%Z.
Proof.
  intros H. unfold Math_round.
  rewrite <- (Qfloor_Z a). apply Qfloor_resp_le. lra.
Qed.

Lemma Math_round_upper (b : Z) (x : Q) :
  x <= inject_Z b -> (Math_round x <= b)%Z.
Proof.
  intros H. unfold Math_round.
  assert (Hlt : inject_Z (Qfloor (x + (1 # 2))) < inject_Z (b + 1)).
  { pose proof (Qfloor_le (x + (1 # 2))) as Hf.
    rewrite inject_Z_plus. change (inject_Z 1) with 1%Q. lra. }
  rewrite <- Zlt_Qlt in Hlt. lia.
Qed.

(** ** Doubles *)

Lemma round_half_even_floor (x : Q) :
  (Qfloor x <= round_half_even x <= Qfloor x + 1)%Z.
Proof.
  unfold round_half_even. cbv zeta.
  destruct (Qcompare _ _); [destruct (Z.even _) | |]; lia.
Qed.

Lemma round_half_even_le (x : Q) (n : Z) :
  x <= inject_Z n -> (round_half_even x <= n)%Z.
Proof.
  intros H. pose proof (Qfloor_le x) as Hf.
  assert (Hfn : (Qfloor x <= n)%Z).
  { rewrite <- (Qfloor_Z n). now apply Qfloor_resp_le. }
  destruct (Z.eq_dec (Qfloor x) n) as [E | E].
  - unfold round_half_even. cbv zeta.
    assert (Hlt : x - inject_Z (Qfloor x) < 1 # 2) by (rewrite E in *; lra).
    destruct (Qcompare (x - inject_Z (Qfloor x)) (1 # 2)) eqn:C; [| lia |].
    + apply Qeq_alt in C. lra.
    + apply Qgt_alt in C. lra.
  - pose proof (round_half_even_floor x). lia.
Qed.

Lemma round_half_even_ge (x : Q) (n : Z) :
  inject_Z n <= x -> (n <= round_half_even x)%Z.
Proof.
  intros H.
  assert (Hfn : (n <= Qfloor x)%Z).
  { rewrite <- (Qfloor_Z n). now apply Qfloor_resp_le. }
  pose proof (round_half_even_floor x). lia.
Qed.

Lemma round_half_even_near (x : Q) :
  x - (1 # 2) <= inject_Z (round_half_even x) <= x + (1 # 2).
Proof.
  pose proof (Qfloor_le x) as Hl. pose proof (Qlt_floor x) as Hu.
  rewrite inject_Z_plus in Hu. change (inject_Z 1) with 1 in Hu.
  unfold round_half_even. cbv zeta.
  destruct (Qcompare (x - inject_Z (Qfloor x)) (1 # 2)) eqn:E.
  - apply Qeq_alt in E.
    destruct (Z.even _); [| rewrite inject_Z_plus; change (inject_Z 1) with 1]; lra.
  - apply Qlt_alt in E. lra.
  - apply Qgt_alt in E. rewrite inject_Z_plus. change (inject_Z 1) with 1. lra.
Qed.

Lemma pow2_pos (e : Z) : 0 < pow2 e.
Proof. apply Qpower_0_lt. reflexivity. Qed.

Lemma pow2_plus (a b : Z) : pow2 (a + b) == pow2 a * pow2 b.
Proof. apply Qpower_plus. discriminate. Qed.

Lemma pow2_le (a b : Z) : (a <= b)%Z -> pow2 a <= pow2 b.
Proof. intros H. apply Qpower_le_compat_l; [assumption | discriminate]. Qed.

Lemma pow2_lt_inv (a b : Z) : pow2 a < pow2 b -> (a < b)%Z.
Proof. intros H. apply (Qpower_lt_compat_l_inv 2); [assumption | reflexivity]. Qed.

Lemma pow2_inject (n : Z) : (0 <= n)%Z -> pow2 n == inject_Z (2 ^ n).
Proof. intros H. unfold pow2. now rewrite Zpower_Qpower. Qed.

Lemma ilog2_le (q : Q) : 0 < q -> pow2 (ilog2 q) <= q.
Proof.
  intros Hq. unfold ilog2. cbv zeta.
  destruct (Qle_bool _ q) eqn:E; [now apply Qle_bool_iff |]. clear E.
  destruct q as [n d]. cbn [Qnum Qden].
  assert (Hn : (0 < n)%Z) by (unfold Qlt in Hq; cbn in Hq; lia).
  set (a := Z.log2 n). set (b := Z.log2 (Z.pos d)).
  assert (Ha : (0 <= a)%Z) by apply Z.log2_nonneg.
  assert (Hb : (0 <= b)%Z) by apply Z.log2_nonneg.
  destruct (Z.log2_spec n Hn) as [Hn1 _]. fold a in Hn1.
  destruct (Z.log2_spec (Z.pos d) eq_refl) as [_ Hd2]. fold b in Hd2.
  assert (E : pow2 (a - b - 1) * inject_Z (2 ^ Z.succ b) == inject_Z (2 ^ a)).
  { rewrite <- !pow2_inject by lia. rewrite <- pow2_plus.
    now replace (a - b - 1 + Z.succ b)%Z with a by lia. }
  pose proof (pow2_pos (a - b - 1)) as Hp.
  assert (H1 : pow2 (a - b - 1) * inject_Z (Z.pos d) <= inject_Z n).
  { apply Qle_trans with (pow2 (a - b - 1) * inject_Z (2 ^ Z.succ b)).
    - apply Qmult_le_l; [assumption |]. rewrite <- Zle_Qle. lia.
    - rewrite E. now rewrite <- Zle_Qle. }
  unfold Qle in *. cbn [Qnum Qden inject_Z Qmult] in *.
  rewrite Z.mul_1_r, Pos.mul_1_r in H1. exact H1.
Qed.

Lemma ilog2_lt (q : Q) (k : Z) : 0 < q -> q < pow2 k -> (ilog2 q < k)%Z.
Proof.
  intros Hq H. apply pow2_lt_inv.
  apply Qle_lt_trans with q; [now apply ilog2_le | assumption].
Qed.

Lemma exponent_le (q : Q) (k : Z) :
  0 < q -> q < pow2 k -> (-1021 <= k)%Z -> (exponent q <= k - 53)%Z.
Proof.
  intros Hq H Hk. pose proof (ilog2_lt q k Hq H). unfold exponent. lia.
Qed.

Lemma nearest_nonneg (q : Q) : 0 <= q -> 0 <= nearest q.
Proof.
  intros Hq. unfold nearest. pose proof (pow2_pos (exponent q)) as Hp.
  apply Qmult_le_0_compat; [| lra].
  change 0 with (inject_Z 0). rewrite <- Zle_Qle.
  apply round_half_even_ge. change (inject_Z 0) with 0.
  apply Qle_shift_div_l; [assumption | lra].
Qed.

(** Rounding does not cross a point of the grid. *)
Lemma nearest_le (q : Q) (n : Z) :
  q <= inject_Z n * pow2 (exponent q) -> nearest q <= inject_Z n * pow2 (exponent q).
Proof.
  intros H. unfold nearest. pose proof (pow2_pos (exponent q)) as Hp.
  apply Qmult_le_compat_r; [| lra]. rewrite <- Zle_Qle.
  apply round_half_even_le. now apply Qle_shift_div_r.
Qed.

Lemma nearest_near (q : Q) :
  q - pow2 (exponent q) * (1 # 2) <= nearest q <= q + pow2 (exponent q) * (1 # 2).
Proof.
  unfold nearest. set (p := pow2 (exponent q)).
  pose proof (pow2_pos (exponent q)) as Hp. fold p in Hp.
  pose proof (round_half_even_near (q / p)) as [Hl Hu].
  assert (E : q == q / p * p) by (field; lra).
  split.
  - apply Qle_trans with ((q / p - (1 # 2)) * p); [rewrite E at 1; lra |].
    apply Qmult_le_compat_r; lra.
  - apply Qle_trans with ((q / p + (1 # 2)) * p); [| rewrite E at 2; lra].
    apply Qmult_le_compat_r; lra.
Qed.

Lemma integer_on_grid (n e : Z) :
  (e <= 0)%Z -> inject_Z n == inject_Z (n * 2 ^ (- e)) * pow2 e.
Proof.
  intros He. rewrite inject_Z_mult, <- pow2_inject by lia.
  rewrite <- Qmult_assoc, <- pow2_plus.
  replace (- e + e)%Z with 0%Z by lia. change (pow2 0) with 1. lra.
Qed.

Lemma double_cases (q : Q) :
  (q < 0 /\ double q == - nearest (- q)) \/ (q == 0 /\ double q == 0) \/
  (0 < q /\ double q == nearest q).
Proof.
  unfold double. destruct (Qcompare q 0) eqn:C.
  - apply Qeq_alt in C. right. left. split; [assumption | reflexivity].
  - apply Qlt_alt in C. left. split; [assumption | apply Qred_correct].
  - apply Qgt_alt in C. right. right. split; [assumption | apply Qred_correct].
Qed.

Lemma double_nonneg (q : Q) : 0 <= q -> 0 <= double q.
Proof.
  intros H. destruct (double_cases q) as [[Hq E] | [[Hq E] | [Hq E]]]; rewrite E.
  - lra.
  - lra.
  - apply nearest_nonneg. lra.
Qed.

Lemma double_nonpos (q : Q) : q <= 0 -> double q <= 0.
Proof.
  intros H. destruct (double_cases q) as [[Hq E] | [[Hq E] | [Hq E]]]; rewrite E.
  - assert (0 <= nearest (- q)) by (apply nearest_nonneg; lra). lra.
  - lra.
  - lra.
Qed.

Lemma nearest_le_integer (q : Q) (n : Z) :
  0 < q -> (n < 2 ^ 53)%Z -> q <= inject_Z n -> nearest q <= inject_Z n.
Proof.
  intros Hq Hn H.
  assert (He : (exponent q <= 0)%Z).
  { assert (q < pow2 53).
    { apply Qle_lt_trans with (inject_Z n); [assumption |].
      rewrite pow2_inject by lia. now rewrite <- Zlt_Qlt. }
    pose proof (exponent_le q 53 Hq H0). lia. }
  rewrite (integer_on_grid n (exponent q) He) in *.
  now apply nearest_le.
Qed.

(** Rounding to a double does not cross an integer below 2^53. *)
Lemma double_le (q : Q) (n : Z) :
  (0 <= n < 2 ^ 53)%Z -> q <= inject_Z n -> double q <= inject_Z n.
Proof.
  intros Hn H.
  assert (0 <= inject_Z n) by (change 0 with (inject_Z 0); rewrite <- Zle_Qle; lia).
  destruct (double_cases q) as [[Hq E] | [[Hq E] | [Hq E]]]; rewrite E.
  - assert (0 <= nearest (- q)) by (apply nearest_nonneg; lra). lra.
  - assumption.
  - apply nearest_le_integer; [assumption | lia | assumption].
Qed.

Lemma double_ge (q : Q) (n : Z) :
  (0 <= n < 2 ^ 53)%Z -> - inject_Z n <= q -> - inject_Z n <= double q.
Proof.
  intros Hn H.
  assert (0 <= inject_Z n) by (change 0 with (inject_Z 0); rewrite <- Zle_Qle; lia).
  destruct (double_cases q) as [[Hq E] | [[Hq E] | [Hq E]]]; rewrite E.
  - assert (nearest (- q) <= inject_Z n)
      by (apply nearest_le_integer; [lra | lia | lra]).
    lra.
  - lra.
  - assert (0 <= nearest q) by (apply nearest_nonneg; lra). lra.
Qed.

Lemma nearest_error (q : Q) (k : Z) :
  0 < q -> q < pow2 k -> (-1021 <= k)%Z ->
  q - pow2 (k - 54) <= nearest q <= q + pow2 (k - 54).
Proof.
  intros Hq H Hk. pose proof (exponent_le q k Hq H Hk) as He.
  pose proof (nearest_near q) as [Hl Hu].
  assert (Hp : pow2 (exponent q) * (1 # 2) <= pow2 (k - 54)).
  { change (1 # 2) with (pow2 (-1)). rewrite <- pow2_plus. apply pow2_le. lia. }
  lra.
Qed.

(** The error of rounding to a double, for a number below 2^k in
    magnitude. *)
Lemma double_error (q : Q) (k : Z) :
  - pow2 k < q -> q < pow2 k -> (-1021 <= k)%Z ->
  q - pow2 (k - 54) <= double q <= q + pow2 (k - 54).
Proof.
  intros Hl Hu Hk. pose proof (pow2_pos (k - 54)) as Hp.
  destruct (double_cases q) as [[Hq E] | [[Hq E] | [Hq E]]]; rewrite E.
  - assert (H : - q - pow2 (k - 54) <= nearest (- q) <= - q + pow2 (k - 54))
      by (apply nearest_error; [lra | lra | assumption]).
    lra.
  - lra.
  - now apply nearest_error.
Qed.

Lemma double_100 : double 100 = 100.
Proof. vm_compute. reflexivity. Qed.

(** The product by 100 of a number between -1 and 1 is a double between
    -100 and 100. *)
Lemma times_100_bounds (c : Q) : -1 <= c <= 1 -> -100 <= times c 100 <= 100.
Proof.
  intros [Hl Hu]. unfold times. rewrite double_100.
  assert (H1 : - inject_Z 1 <= double c) by (apply double_ge; [lia | exact Hl]).
  assert (H2 : double c <= inject_Z 1) by (apply double_le; [lia | exact Hu]).
  change (inject_Z 1) with 1 in H1, H2. split.
  - apply (double_ge _ 100); [lia |]. change (inject_Z 100) with 100. lra.
  - apply (double_le _ 100); [lia |]. change (inject_Z 100) with 100. lra.
Qed.

Lemma times_100_nonneg (c : Q) : 0 <= c -> 0 <= times c 100.
Proof.
  intros H. unfold times. rewrite double_100. apply double_nonneg.
  pose proof (double_nonneg c H). lra.
Qed.

Lemma score_bounds (c : Q) :
  -1 <= c <= 1 -> (-100 <= score c <= 100)%Z.
Proof.
  intros H. apply times_100_bounds in H as [Hl Hu]. unfold score. split.
  - apply Math_round_lower. change (inject_Z (-100)) with (-100)%Q. lra.
  - apply Math_round_upper. change (inject_Z 100) with 100%Q. lra.
Qed.

Lemma score_nonneg (c : Q) : 0 <= c -> (0 <= score c)%Z.
Proof.
  intros H. apply times_100_nonneg in H. unfold score. apply Math_round_lower.
  change (inject_Z 0) with 0%Q. lra.
Qed.

(** The product of the doubles is rounded, not the exact percentage: the
    double nearest to 0.015 is below it and its product by 100 is the
    double 1.5, rounded to 2; the product for 0.285 is the double below
    28.5, rounded to 28. *)
Lemma score_of_double_product :
  score (15 # 1000) = 2%Z /\ times (15 # 1000) 100 = 3 # 2 /\
  double (15 # 1000) < 15 # 1000 /\
  score (57 # 200) = 28%Z /\ times (57 # 200) 100 < 57 # 2 /\
  score (3 # 5) = 60%Z /\ score (-1) = (-100)%Z.
Proof. repeat split; vm_compute; reflexivity. Qed.

(** The score in a result of the response: the rounded integer in the
    fallback, the number of the backend, as it came, in the other branch. *)
Lemma fallback_score_member (m : MatchResult) :
  member "similarity_score" (matchResult_json m) = Some (JInt (similarity_score m)).
Proof. reflexivity. Qed.

Lemma backend_score_member (result : BackendResult) :
  member "similarity_score" (formattedResult result)
  = Some (JNum (br_similarity_score result)).
Proof. reflexivity. Qed.

(** ** The stable sort *)

Section SortFacts.
Context {A : Type} (cmp : A -> A -> Z).

Lemma insert_perm (x : A) (l : list A) :
  Permutation (insert cmp x l) (x :: l).
Proof.
  induction l as [|y l IH]; simpl; [reflexivity |].
  destruct (cmp x y <=? 0)%Z; [reflexivity |].
  rewrite IH. apply perm_swap.
Qed.

Lemma sort_perm (l : list A) : Permutation (sort cmp l) l.
Proof.
  induction l as [|x l IH]; simpl; [reflexivity |].
  rewrite insert_perm. now constructor.
Qed.

Lemma sort_In (l : list A) (x : A) : In x (sort cmp l) <-> In x l.
Proof.
  split; apply Permutation_in; [| symmetry]; apply sort_perm.
Qed.

End SortFacts.

Lemma insert_descending (x : MatchResult) (l : list MatchResult) :
  descending l -> descending (insert by_score_desc x l).
Proof.
  unfold descending. induction l as [|y l IH]; intros Hl; simpl.
  - constructor; [constructor | constructor].
  - inversion Hl as [|? ? Hl' Hy]; subst.
    destruct (by_score_desc x y <=? 0)%Z eqn:E.
    + apply Z.leb_le in E. unfold by_score_desc in E.
      constructor; [assumption |]. constructor; [lia |].
      eapply Forall_impl; [| exact Hy]. simpl. intros; lia.
    + apply Z.leb_gt in E. unfold by_score_desc in E.
      constructor; [now apply IH |].
      eapply Permutation_Forall; [symmetry; apply insert_perm |].
      constructor; [lia | assumption].
Qed.

Lemma sort_descending (l : list MatchResult) :
  descending (sort by_score_desc l).
Proof.
  induction l as [|x l IH]; simpl; [constructor | now apply insert_descending].
Qed.

(** Stability: the results of one score keep their order. *)
Lemma insert_stable (s : Z) (x : MatchResult) (l : list MatchResult) :
  filter (has_score s) (insert by_score_desc x l) = filter (has_score s) (x :: l).
Proof.
  induction l as [|y l IH]; [reflexivity |].
  cbn [insert]. destruct (by_score_desc x y <=? 0)%Z eqn:E; [reflexivity |].
  apply Z.leb_gt in E. unfold by_score_desc in E.
  cbn [filter] in *. rewrite IH. unfold has_score.
  destruct (similarity_score x =? s)%Z eqn:Ex;
    destruct (similarity_score y =? s)%Z eqn:Ey; try reflexivity.
  apply Z.eqb_eq in Ex, Ey. lia.
Qed.

Lemma sort_stable (s : Z) (l : list MatchResult) :
  filter (has_score s) (sort by_score_desc l) = filter (has_score s) l.
Proof.
  induction l as [|x l IH]; [reflexivity |].
  cbn [sort]. rewrite insert_stable. cbn [filter]. now rewrite IH.
Qed.

(** ** Arrays *)

Lemma map_throwing_Forall2 {A B : Type} (f : A -> option B) (l : list A)
  (l' : list B) :
  map_throwing f l = Some l' <-> Forall2 (fun x y => f x = Some y) l l'.
Proof.
  revert l'; induction l as [|x l IH]; intros l'; simpl.
  - split; [intros [= <-]; constructor | intros H; now inversion H].
  - destruct (f x) as [y|] eqn:Ex.
    + destruct (map_throwing f l) as [ys|].
      * split.
        -- intros [= <-]. constructor; [assumption | now apply IH].
        -- intros H. inversion H as [|? y' ? ys' Hy Hys]; subst.
           apply IH in Hys. congruence.
      * split; [discriminate |].
        intros H. inversion H as [|? y' ? ys' Hy Hys]; subst.
        apply IH in Hys. discriminate.
    + split; [discriminate |].
      intros H. inversion H; subst. congruence.
Qed.

Lemma map_throwing_total {A B : Type} (f : A -> option B) (l : list A) :
  Forall (fun x => f x <> None) l -> exists l', map_throwing f l = Some l'.
Proof.
  induction 1 as [|x l Hx _ [l' IH]]; simpl; [now exists [] |].
  destruct (f x) as [y|]; [| congruence]. rewrite IH. now exists (y :: l').
Qed.

Lemma In_filter_Boolean {A : Type} (l : list (option A)) (x : A) :
  In x (filter_Boolean l) <-> In (Some x) l.
Proof.
  induction l as [|[y|] l IH]; simpl; [tauto | |].
  - rewrite IH. split; intros [H | H]; auto; left; congruence.
  - rewrite IH. split; [auto | intros [H | H]; [discriminate | assumption]].
Qed.

(** ** The results of the fallback *)

Section FallbackFacts.
Context {cm : CaseMapping}.
Variable cosineSimilarity : list Q -> list Q -> option Q.

Lemma matchResult_inv (jd : JobDescription) (r : Resume) (m : MatchResult) :
  matchResult cosineSimilarity jd r = Some (Some m) ->
  exists je re c,
    jd_embedding jd = Some je /\ embedding r = Some re /\
    cosineSimilarity je re = Some c /\
    m = {| resume := r;
           similarity_score := score c;
           matched_skills :=
             matchedSkills (or_array (jd_skills jd) []) (or_array (skills r) []);
           highlights :=
             highlightsOf r
               (matchedSkills (or_array (jd_skills jd) []) (or_array (skills r) [])) |}.
Proof.
  unfold matchResult.
  destruct (jd_embedding jd) as [je|]; [| discriminate].
  destruct (embedding r) as [re|]; [| discriminate].
  destruct (cosineSimilarity je re) as [c|] eqn:Ec; [| discriminate].
  intros [= <-]. now exists je, re, c.
Qed.

Lemma matchResult_resume (jd : JobDescription) (r : Resume) (m : MatchResult) :
  matchResult cosineSimilarity jd r = Some (Some m) -> resume m = r.
Proof.
  intros H. apply matchResult_inv in H as (je & re & c & _ & _ & _ & ->).
  reflexivity.
Qed.

(** The results that pass a test, before the sort, are the resumes whose
    result passes it, in the order of the resumes. *)
Lemma filter_Boolean_resumes (jd : JobDescription) (p : MatchResult -> bool)
  (rs : list Resume) (l : list (option MatchResult)) :
  Forall2 (fun r y => matchResult cosineSimilarity jd r = Some y) rs l ->
  map resume (filter p (filter_Boolean l)) =
  filter (fun r => match matchResult cosineSimilarity jd r with
                   | Some (Some m) => p m
                   | _ => false
                   end) rs.
Proof.
  induction 1 as [|r y rs l Hr _ IH]; [reflexivity |].
  cbn [filter]. rewrite Hr. destruct y as [m|]; cbn [filter_Boolean filter].
  - destruct (p m); cbn [map]; rewrite IH; [| reflexivity].
    now rewrite (matchResult_resume _ _ _ Hr).
  - exact IH.
Qed.

Lemma matchResults_inv (jd : JobDescription) (rs : list Resume)
  (ms : list MatchResult) :
  matchResults cosineSimilarity jd rs = Some ms ->
  exists l,
    Forall2 (fun r y => matchResult cosineSimilarity jd r = Some y) rs l /\
    ms = sort by_score_desc (filter_Boolean l).
Proof.
  unfold matchResults.
  destruct (map_throwing _ rs) as [l|] eqn:E; [| discriminate].
  intros [= <-]. exists l. split; [now apply map_throwing_Forall2 | reflexivity].
Qed.

Lemma matchResults_In (jd : JobDescription) (rs : list Resume)
  (ms : list MatchResult) (m : MatchResult) :
  matchResults cosineSimilarity jd rs = Some ms ->
  In m ms ->
  exists r, In r rs /\ matchResult cosineSimilarity jd r = Some (Some m).
Proof.
  intros H Hm. apply matchResults_inv in H as (l & Hl & ->).
  apply sort_In, In_filter_Boolean in Hm.
  induction Hl as [|r y rs l Hr _ IH]; [contradiction |].
  destruct Hm as [-> | Hm].
  - exists r. split; [now left | assumption].
  - destruct (IH Hm) as (r' & Hin & Hr'). exists r'. split; [now right | assumption].
Qed.

Lemma matchResults_resumes (jd : JobDescription) (rs : list Resume)
  (ms : list MatchResult) :
  matchResults cosineSimilarity jd rs = Some ms ->
  Permutation (map resume ms)
    (filter (fun r => match matchResult cosineSimilarity jd r with
                      | Some (Some _) => true
                      | _ => false
                      end) rs).
Proof.
  intros H. apply matchResults_inv in H as (l & Hl & ->).
  rewrite (Permutation_map resume (sort_perm by_score_desc (filter_Boolean l))).
  pose proof (filter_Boolean_resumes jd (fun _ => true) rs l Hl) as E.
  rewrite <- E. clear E.
  assert (F : forall (k : list MatchResult), filter (fun _ => true) k = k).
  { induction k as [|x k IHk]; simpl; [reflexivity | now rewrite IHk]. }
  now rewrite F.
Qed.

End FallbackFacts.

(** ** Scores (C1) *)

(** C1, as stated, fails.  The job description has embedding (1, 0) and the
    resume (-1, 0); their cosine similarity is -1, which is in range, and the
    score returned for the resume is -100: no clamp is applied, and the
    score is not in [0,100]. *)
Lemma score_negative_counterexample :
  Forall (cosine_in_range Sample.cosine Sample.the_jd) [Sample.cat] /\
  exists m,
    matchResults Sample.cosine Sample.the_jd [Sample.cat] = Some [m] /\
    resume m = Sample.cat /\
    similarity_score m = (-100)%Z /\
    ~ (0 <= similarity_score m <= 100)%Z.
Proof.
  split.
  - constructor; [| constructor]. intros je re c [= <-] [= <-] [= <-].
    split; discriminate.
  - eexists. split; [vm_compute; reflexivity |].
    simpl. split; [reflexivity |]. split; [reflexivity | lia].
Qed.

(** C1, amended: in the fallback the score of every result is the cosine
    similarity of the two embeddings, multiplied by 100 in the doubles and
    rounded to the nearest integer, without a clamp; it lies in
    [-100,100], and in [0,100] when the cosine similarity is not
    negative. *)
Theorem score_is_rounded_cosine {cm : CaseMapping}
  (cosineSimilarity : list Q -> list Q -> option Q)
  (jd : JobDescription) (rs : list Resume) (ms : list MatchResult) :
  Forall (cosine_in_range cosineSimilarity jd) rs ->
  matchResults cosineSimilarity jd rs = Some ms ->
  Forall (rounded_cosine cosineSimilarity jd) ms.
Proof.
  intros Hrange Hms. apply Forall_forall. intros m Hm.
  destruct (matchResults_In _ _ _ _ _ Hms Hm) as (r & Hr & Hres).
  apply matchResult_inv in Hres as (je & re & c & Hje & Hre & Hc & ->).
  rewrite Forall_forall in Hrange.
  pose proof (Hrange r Hr je re c Hje Hre Hc) as Hb.
  exists je, re, c. cbn [resume similarity_score].
  repeat split; try assumption; try reflexivity.
  - now apply score_bounds.
  - now apply score_bounds.
  - now apply score_nonneg.
  - now apply score_bounds.
Qed.

Ltac sample_in_range :=
  repeat (apply Forall_cons;
          [ let je := fresh "je" in
            let re := fresh "re" in
            let c := fresh "c" in
            let Hje := fresh "Hje" in
            let Hre := fresh "Hre" in
            let Hc := fresh "Hc" in
            intros je re c Hje Hre Hc;
            vm_compute in Hje, Hre;
            first [ discriminate
                  | injection Hje as <-; injection Hre as <-;
                    vm_compute in Hc; injection Hc as <-; split; discriminate ]
          | ]);
  apply Forall_nil.

Lemma score_is_rounded_cosine_witness :
  Forall (cosine_in_range Sample.cosine Sample.the_jd) Sample.pool /\
  matchResults Sample.cosine Sample.the_jd Sample.pool = Some Sample.ranked /\
  Forall (rounded_cosine Sample.cosine Sample.the_jd) Sample.ranked.
Proof.
  assert (Hr : Forall (cosine_in_range Sample.cosine Sample.the_jd) Sample.pool)
    by sample_in_range.
  assert (Hm : matchResults Sample.cosine Sample.the_jd Sample.pool
               = Some Sample.ranked) by (vm_compute; reflexivity).
  exact (conj Hr (conj Hm (score_is_rounded_cosine _ _ _ _ Hr Hm))).
Defined.

(** ** Ranking (C3) *)

(** C3, as stated, fails.  Two resumes are fetched in the order r-b, r-a
    and receive the same score 60; the ranking keeps r-b before r-a,
    although r-a is the smaller id. *)
Lemma tie_break_counterexample :
  exists a b,
    matchResults Sample.cosine Sample.the_jd [Sample.bob; Sample.ann]
    = Some [a; b] /\
    similarity_score a = similarity_score b /\
    id (resume a) = "r-b" /\ id (resume b) = "r-a" /\
    String.ltb (id (resume b)) (id (resume a)) = true.
Proof.
  do 2 eexists. split; [vm_compute; reflexivity |].
  repeat split; reflexivity.
Qed.

(** C3, amended: the ranking of the fallback is in descending order of
    score, and the results of one score are in the order in which their
    resumes were fetched (the comparator looks at the score only and the
    sort is stable); the id of a resume plays no part. *)
Theorem ranking_descending_stable {cm : CaseMapping}
  (cosineSimilarity : list Q -> list Q -> option Q)
  (jd : JobDescription) (rs : list Resume) (ms : list MatchResult) :
  matchResults cosineSimilarity jd rs = Some ms ->
  descending ms /\
  forall s : Z,
    map resume (filter (has_score s) ms) =
    filter (fun r => match matchResult cosineSimilarity jd r with
                     | Some (Some m) => has_score s m
                     | _ => false
                     end) rs.
Proof.
  intros H. apply matchResults_inv in H as (l & Hl & ->). split.
  - apply sort_descending.
  - intros s. rewrite sort_stable. now apply filter_Boolean_resumes.
Qed.

Lemma ranking_descending_stable_witness :
  matchResults Sample.cosine Sample.the_jd Sample.pool = Some Sample.ranked /\
  descending Sample.ranked /\
  map resume (filter (has_score 60) Sample.ranked) = [Sample.bob; Sample.ann].
Proof.
  assert (Hm : matchResults Sample.cosine Sample.the_jd Sample.pool
               = Some Sample.ranked) by (vm_compute; reflexivity).
  destruct (ranking_descending_stable _ _ _ _ Hm) as [Hd Hs].
  split; [exact Hm |]. split; [exact Hd |].
  rewrite (Hs 60%Z). vm_compute. reflexivity.
Defined.

(** ** Matched skills (C4, C10) *)

Lemma Subseq_filter {A : Type} (p : A -> bool) (l : list A) :
  Subseq (filter p l) l.
Proof.
  induction l as [|x l IH]; simpl; [constructor |].
  destruct (p x); now constructor.
Qed.

Lemma count_occ_filter (p : string -> bool) (l : list string) (s : string) :
  p s = true ->
  count_occ string_dec (filter p l) s = count_occ string_dec l s.
Proof.
  intros Hs. induction l as [|x l IH]; [reflexivity |].
  cbn [filter]. destruct (p x) eqn:Ex; cbn [count_occ].
  - now rewrite IH.
  - destruct (string_dec x s) as [-> | _]; [congruence | exact IH].
Qed.

(** C4, as stated, fails.  The skills Python, python, SQL of a resume
    against the skill Python of a job description give Python and python,
    not Python alone; and a skill listed twice by the resume is given
    twice. *)
Lemma matched_skills_counterexample :
  matchedSkills ["Python"] ["Python"; "python"; "SQL"] = ["Python"; "python"] /\
  matchedSkills ["Python"] ["Python"; "python"; "SQL"] <> ["Python"] /\
  matchedSkills ["Python"] ["Python"; "Python"] = ["Python"; "Python"] /\
  ~ NoDup (matchedSkills ["Python"] ["Python"; "Python"]).
Proof.
  split; [reflexivity |]. split; [discriminate |]. split; [reflexivity |].
  intros H. inversion H as [|? ? Hn _]. apply Hn. now left.
Qed.

(** C4, amended: the matched skills are the skills of the resume that
    contain, or are contained in, some skill of the job description, both
    lowered by the case mapping of the runtime; they come in the order of
    the resume's list, each as many times as the resume lists it.  Nothing
    is removed for being a duplicate. *)
Theorem matchedSkills_filter {cm : CaseMapping}
  (jdSkills resumeSkills : list string) :
  Subseq (matchedSkills jdSkills resumeSkills) resumeSkills /\
  (forall skill,
      In skill (matchedSkills jdSkills resumeSkills) <->
      In skill resumeSkills /\
      exists jdSkill, In jdSkill jdSkills /\ Contained skill jdSkill) /\
  (forall skill,
      In skill (matchedSkills jdSkills resumeSkills) ->
      count_occ string_dec (matchedSkills jdSkills resumeSkills) skill =
      count_occ string_dec resumeSkills skill).
Proof.
  unfold matchedSkills. split; [apply Subseq_filter |]. split.
  - intros skill. rewrite filter_In, existsb_exists. unfold Contained.
    split; intros [Hin [j [Hj Hc]]]; (split; [assumption |]); exists j;
      (split; [assumption |]).
    + apply orb_true_iff in Hc. now rewrite !includes_Substring in Hc.
    + apply orb_true_iff. now rewrite !includes_Substring.
  - intros skill Hin. apply filter_In in Hin as [_ Hp].
    now apply count_occ_filter.
Qed.

(** With the case mapping of the samples: React is contained in ReactJS
    and SQL in MySQL; React, listed twice, is given twice; Python, python,
    SQL against Python give Python, python; and é matches É. *)
Lemma matchedSkills_filter_witness :
  matchedSkills ["ReactJS"; "SQL"] ["React"; "Java"; "MySQL"; "React"]
  = ["React"; "MySQL"; "React"] /\
  Contained "React" "ReactJS" /\ Contained "MySQL" "SQL" /\
  count_occ string_dec
    (matchedSkills ["ReactJS"; "SQL"] ["React"; "Java"; "MySQL"; "React"]) "React"
  = 2%nat /\
  matchedSkills ["Python"] ["Python"; "python"; "SQL"] = ["Python"; "python"] /\
  matchedSkills [Sample.E_acute] ["E"; Sample.e_acute] = [Sample.e_acute].
Proof.
  destruct (matchedSkills_filter ["ReactJS"; "SQL"]
              ["React"; "Java"; "MySQL"; "React"]) as (_ & Hin & Hcount).
  split; [reflexivity |].
  assert (Hr : In "React" (matchedSkills ["ReactJS"; "SQL"]
                             ["React"; "Java"; "MySQL"; "React"]))
    by (left; reflexivity).
  split; [| split; [| split; [| split]]].
  - left. apply includes_Substring. reflexivity.
  - right. apply includes_Substring. reflexivity.
  - rewrite (Hcount "React" Hr). reflexivity.
  - reflexivity.
  - reflexivity.
Defined.

Lemma matchedSkills_nil {cm : CaseMapping} (resumeSkills : list string) :
  matchedSkills [] resumeSkills = [].
Proof.
  induction resumeSkills as [|x l IH]; [reflexivity | exact IH].
Qed.

(** C10: when the job description has no skills, or an empty list of
    them, every result of the fallback has no matched skill and its second
    highlight reads 0 matching skills, whatever the skills of the resume. *)
Theorem no_jd_skills_no_match {cm : CaseMapping}
  (cosineSimilarity : list Q -> list Q -> option Q)
  (jd : JobDescription) (rs : list Resume) (ms : list MatchResult)
  (m : MatchResult) :
  jd_skills jd = None \/ jd_skills jd = Some [] ->
  matchResults cosineSimilarity jd rs = Some ms ->
  In m ms ->
  matched_skills m = [] /\
  nth_error (highlights m) 1 = Some "0 matching skills".
Proof.
  intros Hjd Hms Hm.
  destruct (matchResults_In _ _ _ _ _ Hms Hm) as (r & _ & Hres).
  apply matchResult_inv in Hres as (je & re & c & _ & _ & _ & ->).
  cbn [matched_skills highlights].
  assert (E : matchedSkills (or_array (jd_skills jd) []) (or_array (skills r) []) = []).
  { assert (Ej : or_array (jd_skills jd) [] = [])
      by (destruct Hjd as [-> | ->]; reflexivity).
    rewrite Ej. apply matchedSkills_nil. }
  rewrite E. split; reflexivity.
Qed.

Lemma no_jd_skills_no_match_witness :
  exists m,
    matchResults Sample.cosine (Sample.jd "jd-0" None (Some [1; 0])) [Sample.ann]
    = Some [m] /\
    skills (resume m) = Some ["Python"; "python"; "SQL"] /\
    matched_skills m = [] /\
    nth_error (highlights m) 1 = Some "0 matching skills".
Proof.
  eexists. split; [vm_compute; reflexivity |]. split; [reflexivity |].
  eapply (no_jd_skills_no_match Sample.cosine
            (Sample.jd "jd-0" None (Some [1; 0])) [Sample.ann]).
  - left; reflexivity.
  - vm_compute; reflexivity.
  - left; reflexivity.
Defined.

(** ** Highlights (C7) *)

Lemma highlightsOf_lines (r : Resume) (matched : list string) :
  highlightsOf r matched =
  [ (toString (match experience_years r with
               | Some n => n
               | None => 0
               end) ++ " years of experience")%string;
    (toString (Z.of_nat (List.length matched)) ++ " matching skills")%string;
    match education r with
    | Some level => if (level =? "")%string then "Education not specified" else level
    | None => "Education not specified"
    end ].
Proof.
  unfold highlightsOf. f_equal; [| f_equal].
  - f_equal. f_equal. unfold or_number.
    destruct (experience_years r) as [n|]; [| reflexivity].
    destruct (n =? 0)%Z eqn:E; [apply Z.eqb_eq in E; now subst | reflexivity].
  - f_equal. unfold or_string.
    destruct (education r) as [[|ch level]|]; reflexivity.
Qed.

(** C7: the highlights of every result of the fallback are three lines, in
    this order: the years of experience of the resume, 0 when they are
    unknown; the number of matched skills; the education of the resume, or
    Education not specified when there is none. *)
Theorem highlights_three_lines {cm : CaseMapping}
  (cosineSimilarity : list Q -> list Q -> option Q)
  (jd : JobDescription) (rs : list Resume) (ms : list MatchResult)
  (m : MatchResult) :
  matchResults cosineSimilarity jd rs = Some ms ->
  In m ms ->
  highlights m =
  [ (toString (match experience_years (resume m) with
               | Some n => n
               | None => 0
               end) ++ " years of experience")%string;
    (toString (Z.of_nat (List.length (matched_skills m))) ++ " matching skills")%string;
    match education (resume m) with
    | Some level => if (level =? "")%string then "Education not specified" else level
    | None => "Education not specified"
    end ].
Proof.
  intros Hms Hm.
  destruct (matchResults_In _ _ _ _ _ Hms Hm) as (r & _ & Hres).
  apply matchResult_inv in Hres as (je & re & c & _ & _ & _ & ->).
  cbn [highlights resume matched_skills]. apply highlightsOf_lines.
Qed.

Lemma highlights_three_lines_witness :
  exists m,
    In m Sample.ranked /\ resume m = Sample.ann /\
    highlights m =
    ["6 years of experience"; "2 matching skills"; "Education not specified"].
Proof.
  assert (Hm : matchResults Sample.cosine Sample.the_jd Sample.pool
               = Some Sample.ranked) by (vm_compute; reflexivity).
  eexists. split; [right; left; reflexivity |]. split; [reflexivity |].
  rewrite (highlights_three_lines _ _ _ _ _ Hm (or_intror (or_introl eq_refl))).
  reflexivity.
Defined.

(** ** The store *)

Lemma key_eqb_eq (k1 k2 : string * string) : key_eqb k1 k2 = true <-> k1 = k2.
Proof.
  destruct k1 as [a1 b1], k2 as [a2 b2]. unfold key_eqb. cbn [fst snd].
  rewrite andb_true_iff, !String.eqb_eq. split.
  - intros [-> ->]. reflexivity.
  - intros [= -> ->]. now split.
Qed.

Lemma existsb_key (k : string * string) (ks : list (string * string)) :
  existsb (key_eqb k) ks = true <-> In k ks.
Proof.
  rewrite existsb_exists. split.
  - intros [k' [Hin Hk]]. apply key_eqb_eq in Hk. now subst.
  - intros Hin. exists k. split; [assumption | now apply key_eqb_eq].
Qed.

Lemma distinct_NoDup (ks : list (string * string)) :
  distinct ks = true <-> NoDup ks.
Proof.
  induction ks as [|k ks IH]; cbn [distinct].
  - split; [constructor | reflexivity].
  - rewrite andb_true_iff, negb_true_iff, IH. split.
    + intros [Hk Hks]. constructor; [| assumption].
      intros Hin. apply existsb_key in Hin. congruence.
    + intros H. inversion H as [|? ? Hk Hks]; subst. split; [| assumption].
      destruct (existsb (key_eqb k) ks) eqn:E; [| reflexivity].
      apply existsb_key in E. contradiction.
Qed.


Lemma filter_keeps_distinct {R K : Type} (proj : R -> K) (keep : R -> bool)
  (rows : list R) :
  NoDup (map proj rows) -> NoDup (map proj (filter keep rows)).
Proof.
  induction rows as [|row rows IH]; cbn [map filter]; [trivial |].
  intros H. inversion H as [|? ? Hrow Hrows]; subst.
  destruct (keep row); [| now apply IH].
  cbn [map]. constructor; [| now apply IH].
  intros Hin. apply Hrow. apply in_map_iff in Hin as (other & Hk & Hin).
  apply filter_In in Hin as [Hin _]. apply in_map_iff. now exists other.
Qed.

Lemma others_idem (jid : string) (rows : list MatchRow) :
  others jid (others jid rows) = others jid rows.
Proof.
  unfold others. induction rows as [|m rows IH]; [reflexivity |].
  cbn [filter]. destruct (negb (job_description_id m =? jid)) eqn:E.
  - cbn [filter]. rewrite E. now rewrite IH.
  - exact IH.
Qed.

Lemma others_all_of (jid : string) (rows : list MatchRow) :
  all_of jid rows -> others jid rows = [].
Proof.
  unfold others. induction 1 as [|m rows Hm _ IH]; [reflexivity |].
  cbn [filter]. rewrite Hm, String.eqb_refl. exact IH.
Qed.


Lemma no_clash_with_others (jid : string) (rows ins : list MatchRow) :
  all_of jid ins ->
  forallb (fun r => negb (existsb (key_eqb (key r)) (map key (others jid rows))))
          ins = true.
Proof.
  intros H. apply forallb_forall. intros r Hr.
  unfold all_of in H. rewrite Forall_forall in H. specialize (H r Hr).
  apply negb_true_iff.
  destruct (existsb _ _) eqn:E; [| reflexivity].
  apply existsb_key, in_map_iff in E as (m & Hk & Hm).
  apply filter_In in Hm as [_ Hm]. apply negb_true_iff, String.eqb_neq in Hm.
  unfold key in Hk. congruence.
Qed.


Lemma replace_matches_store (env : Env) (db : DB) (jid : string)
  (ins : list MatchRow) (written : list LogEntry) (answer : JSON) :
  store (replace_matches env db jid ins written answer) = store_after env db jid ins.
Proof.
  unfold replace_matches, store_after.
  now destruct (insert_match_results env (delete_match_results env db jid) ins).
Qed.

Lemma replace_matches_response (env : Env) (db : DB) (jid : string)
  (ins : list MatchRow) (written : list LogEntry) (answer : JSON) :
  response (replace_matches env db jid ins written answer) = json_ok answer.
Proof.
  unfold replace_matches.
  now destruct (insert_match_results env (delete_match_results env db jid) ins).
Qed.

Lemma POST_store {cm : CaseMapping} (cosineSimilarity : list Q -> list Q -> option Q)
  (env : Env) (db : DB) (jid : string) :
  store (POST cosineSimilarity env db jid) =
  match planned cosineSimilarity env db jid with
  | Some ins => store_after env db jid ins
  | None => db
  end.
Proof.
  unfold POST, planned.
  destruct (select_job_description env db jid) as [jd|]; [| reflexivity].
  destruct (select_resumes env db) as [msg | rs]; [reflexivity |].
  destruct (backend env) as [| | data]; [reflexivity | |].
  - unfold fallback.
    destruct (matchResults cosineSimilarity jd rs) as [ms|]; [| reflexivity].
    apply replace_matches_store.
  - unfold use_backend. destruct (success data); [| reflexivity].
    destruct (results data) as [rs'|]; [| reflexivity].
    apply replace_matches_store.
Qed.

Lemma planned_all_of {cm : CaseMapping} (cosineSimilarity : list Q -> list Q -> option Q)
  (env : Env) (db : DB) (jid : string) (ins : list MatchRow) :
  planned cosineSimilarity env db jid = Some ins -> all_of jid ins.
Proof.
  unfold planned, all_of.
  destruct (select_job_description env db jid) as [jd|]; [| discriminate].
  destruct (select_resumes env db) as [msg | rs]; [discriminate |].
  destruct (backend env) as [| | data]; [discriminate | |].
  - destruct (matchResults cosineSimilarity jd rs) as [ms|]; [| discriminate].
    intros [= <-]. unfold matchInserts. apply Forall_forall.
    intros m Hm. apply in_map_iff in Hm as (x & <- & _). reflexivity.
  - destruct (success data); [| discriminate].
    destruct (results data) as [rs'|]; [| discriminate].
    intros [= <-]. unfold backendInserts. apply Forall_forall.
    intros m Hm. apply in_map_iff in Hm as (x & <- & _). reflexivity.
Qed.


Lemma store_after_documents (env : Env) (db : DB) (jid : string)
  (ins : list MatchRow) :
  job_descriptions (store_after env db jid ins) = job_descriptions db /\
  resumes (store_after env db jid ins) = resumes db.
Proof.
  unfold store_after, insert_match_results, delete_match_results.
  destruct (insert_fault env), (delete_fails env);
    repeat match goal with
           | |- context [if ?b then _ else _] => destruct b
           end; split; reflexivity.
Qed.

(** With the delete done, the store holds the rows of the other job
    descriptions, followed by [ins] when the insert is accepted. *)
Lemma store_after_rows (env : Env) (db : DB) (jid : string)
  (ins : list MatchRow) :
  delete_fails env = false ->
  all_of jid ins ->
  match_results (store_after env db jid ins) =
  others jid (match_results db) ++ (if accepted env db ins then ins else []).
Proof.
  intros Hd Hins.
  unfold store_after, insert_match_results, delete_match_results, accepted.
  rewrite Hd. destruct (insert_fault env) as [e|].
  - cbn [snd with_match_results match_results]. now rewrite app_nil_r.
  - unfold unique_ok. cbn [match_results with_match_results].
    fold (others jid (match_results db)).
    rewrite (no_clash_with_others jid (match_results db) ins Hins), andb_true_r.
    unfold foreign_keys_ok. cbn [job_descriptions resumes with_match_results].
    destruct (distinct (map key ins)); cbn [negb andb snd match_results];
      [| now rewrite app_nil_r].
    match goal with |- context [forallb ?f ins] => destruct (forallb f ins) end;
      cbn [negb snd match_results with_match_results]; [reflexivity |].
    now rewrite app_nil_r.
Qed.




(** ** Re-running the match (C2) *)










(** ** A job description that is not there (C8) *)

Lemma filter_none {A : Type} (p : A -> bool) (l : list A) :
  (forall x, In x l -> p x = false) -> filter p l = [].
Proof.
  induction l as [|x l IH]; intros H; [reflexivity |].
  cbn [filter]. rewrite (H x (or_introl eq_refl)).
  apply IH. intros y Hy. apply H. now right.
Qed.

(** C8: when no job description of the store has the id of the request,
    the answer is the 404 error Job description not found, whatever the
    resumes, the cosine similarity and the environment; the store is left
    as it was and nothing is logged. *)
Theorem missing_jd_not_found {cm : CaseMapping}
  (cosineSimilarity : list Q -> list Q -> option Q)
  (env : Env) (db : DB) (jid : string) :
  (forall j, In j (job_descriptions db) -> jd_id j <> jid) ->
  POST cosineSimilarity env db jid =
  {| response := {| status := 404;
                    body := JObj [("error", JStr "Job description not found")] |};
     store := db;
     log := [] |}.
Proof.
  intros H. unfold POST, select_job_description.
  destruct (jd_query_fails env); [reflexivity |].
  rewrite filter_none; [reflexivity |].
  intros j Hj. apply String.eqb_neq. now apply H.
Qed.

Lemma missing_jd_not_found_witness :
  POST Sample.cosine Sample.backend_down
       (Sample.db_of Sample.pool Sample.stale) "jd-2" =
  {| response := {| status := 404;
                    body := JObj [("error", JStr "Job description not found")] |};
     store := Sample.db_of Sample.pool Sample.stale;
     log := [] |}.
Proof.
  apply (missing_jd_not_found Sample.cosine Sample.backend_down
           (Sample.db_of Sample.pool Sample.stale) "jd-2").
  intros j [<- | []]. discriminate.
Defined.

(** ** A failed insert (C9) *)

(** C9, as stated, fails.  The insert of the results fails; the response is
    the 200 response of the request whose insert succeeds, with no mention
    of the error, and no row is stored. *)
Lemma insert_error_counterexample :
  insert_fault Sample.insert_down = Some "connection closed" /\
  match_results
    (store (POST Sample.cosine Sample.insert_down
              (Sample.db_of Sample.pool []) "jd-1")) = [] /\
  match_results
    (store (POST Sample.cosine Sample.backend_down
              (Sample.db_of Sample.pool []) "jd-1")) <> [] /\
  status (response (POST Sample.cosine Sample.insert_down
                      (Sample.db_of Sample.pool []) "jd-1")) = 200%Z /\
  response (POST Sample.cosine Sample.insert_down
              (Sample.db_of Sample.pool []) "jd-1")
  = response (POST Sample.cosine Sample.backend_down
                (Sample.db_of Sample.pool []) "jd-1").
Proof.
  split; [reflexivity |]. split; [vm_compute; reflexivity |].
  split; [vm_compute; discriminate |]. split; vm_compute; reflexivity.
Qed.

(** An insert that fails, for a fault of the store or for a constraint
    that refuses the rows, leaves the store as the delete left it; the
    answer is the one of the insert that succeeds, and the console gets
    one line more. *)
Lemma replace_matches_refused (env : Env) (db : DB) (jid : string)
  (ins : list MatchRow) (written : list LogEntry) (answer : JSON) (e : string) :
  fst (insert_match_results env (delete_match_results env db jid) ins) = Some e ->
  replace_matches env db jid ins written answer =
  {| response := json_ok answer;
     store := delete_match_results env db jid;
     log := written ++ [storing_error] |}.
Proof.
  unfold replace_matches, insert_match_results.
  destruct (insert_fault env) as [f|]; [reflexivity |].
  destruct (unique_ok _ ins); cbn [negb]; [| reflexivity].
  destruct (foreign_keys_ok _ ins); cbn [negb fst]; [discriminate | reflexivity].
Qed.

(** C9, amended: when the insert of the results fails, whether for a fault
    of the store or because a constraint of the table refuses the rows, the
    answer is the 200 response with the results, as when the insert
    succeeds: the error is written to the server console and is nowhere in
    the response; the store is left as the delete left it.  This holds in
    the fallback and with the backend. *)
Theorem insert_error_only_logged {cm : CaseMapping}
  (cosineSimilarity : list Q -> list Q -> option Q)
  (env : Env) (db : DB) (jid : string) (jd : JobDescription) (e : string) :
  select_job_description env db jid = Some jd ->
  resumes_query_error env = None ->
  (forall ms,
      backend env = BackendNotOk ->
      matchResults cosineSimilarity jd (resumes db) = Some ms ->
      fst (insert_match_results env (delete_match_results env db jid)
             (map (row_of_result jid) ms)) = Some e ->
      POST cosineSimilarity env db jid =
      {| response := {| status := 200; body := JArr (map matchResult_json ms) |};
         store := delete_match_results env db jid;
         log := [backend_warning; storing_error] |}) /\
  (forall data rs,
      backend env = BackendOk data ->
      success data = true ->
      results data = Some rs ->
      fst (insert_match_results env (delete_match_results env db jid)
             (map (row_of_backend jid) rs)) = Some e ->
      POST cosineSimilarity env db jid =
      {| response := {| status := 200; body := JArr (map formattedResult rs) |};
         store := delete_match_results env db jid;
         log := [storing_error] |}).
Proof.
  intros Hjd Hq. unfold POST, select_resumes. rewrite Hjd, Hq. split.
  - intros ms Hb Hms He. rewrite Hb. unfold fallback. rewrite Hms.
    now rewrite (replace_matches_refused _ _ _ _ _ _ e He).
  - intros data rs Hb Hs Hrs He. rewrite Hb. unfold use_backend.
    rewrite Hs, Hrs. cbn [negb].
    now rewrite (replace_matches_refused _ _ _ _ _ _ e He).
Qed.

(** A fault of the store in the fallback: the response is the response of
    the request whose insert succeeds.  And a refusal by a constraint with
    the backend, which names the resume r-a twice: both results are
    returned, none is stored. *)
Lemma insert_error_only_logged_witness :
  POST Sample.cosine Sample.insert_down
       (Sample.db_of Sample.pool Sample.stale) "jd-1"
  = {| response := {| status := 200;
                      body := JArr (map matchResult_json Sample.ranked) |};
       store := delete_match_results Sample.insert_down
                  (Sample.db_of Sample.pool Sample.stale) "jd-1";
       log := [backend_warning; storing_error] |} /\
  response (POST Sample.cosine Sample.insert_down
              (Sample.db_of Sample.pool Sample.stale) "jd-1")
  = response (POST Sample.cosine Sample.backend_down
                (Sample.db_of Sample.pool Sample.stale) "jd-1") /\
  POST Sample.cosine
       (Sample.backend_up [Sample.from_backend "r-a" 90; Sample.from_backend "r-a" 80])
       (Sample.db_of Sample.pool Sample.stale) "jd-1"
  = {| response :=
         {| status := 200;
            body := JArr (map formattedResult
                            [Sample.from_backend "r-a" 90;
                             Sample.from_backend "r-a" 80]) |};
       store := delete_match_results Sample.backend_down
                  (Sample.db_of Sample.pool Sample.stale) "jd-1";
       log := [storing_error] |} /\
  map key (match_results
             (delete_match_results Sample.backend_down
                (Sample.db_of Sample.pool Sample.stale) "jd-1"))
  = [("jd-9", "r-a")].
Proof.
  destruct (insert_error_only_logged Sample.cosine Sample.insert_down
              (Sample.db_of Sample.pool Sample.stale) "jd-1" Sample.the_jd
              "connection closed" eq_refl eq_refl) as [Hfault _].
  destruct (insert_error_only_logged Sample.cosine
              (Sample.backend_up
                 [Sample.from_backend "r-a" 90; Sample.from_backend "r-a" 80])
              (Sample.db_of Sample.pool Sample.stale) "jd-1" Sample.the_jd
              "duplicate key value violates unique constraint" eq_refl eq_refl)
    as [_ Hrefused].
  assert (Hms : matchResults Sample.cosine Sample.the_jd
                  (resumes (Sample.db_of Sample.pool Sample.stale))
                = Some Sample.ranked) by (vm_compute; reflexivity).
  split; [| split; [| split]].
  - exact (Hfault Sample.ranked eq_refl Hms eq_refl).
  - rewrite (Hfault Sample.ranked eq_refl Hms eq_refl).
    vm_compute. reflexivity.
  - apply (Hrefused {| success := true; message := None;
                       results := Some [Sample.from_backend "r-a" 90;
                                        Sample.from_backend "r-a" 80] |});
      reflexivity.
  - reflexivity.
Defined.

(** ** Which strategy produced the scores (C6) *)

(** C6, as stated, fails.  The backend answers with a status that is not
    OK and the fallback ranks the one resume of the store.  The response is
    the bare array of the results: the array has no member of its own, its
    one result has the members resume, similarity_score, matched_skills and
    highlights, and the resume has the columns of the table; nothing in it
    is a flag or a tag of the strategy, which only the warning on the
    server console tells.  And with no resume in the store, the response
    of the fallback and the response of the backend, which finds no result,
    are the same. *)
Lemma strategy_tag_counterexample :
  backend Sample.backend_down = BackendNotOk /\
  log (POST Sample.cosine Sample.backend_down
         (Sample.db_of [Sample.bob] []) "jd-1") = [backend_warning] /\
  response (POST Sample.cosine Sample.backend_down
              (Sample.db_of [Sample.bob] []) "jd-1")
  = {| status := 200;
       body :=
         JArr [ JObj [ ("resume",
                        JObj [ ("id", JStr "r-b");
                               ("file_name", JStr "r-b.pdf");
                               ("candidate_name", JNull);
                               ("email", JNull);
                               ("phone", JNull);
                               ("experience_years", JNull);
                               ("skills", JArr [JStr "SQL"]);
                               ("education", JStr "Bachelor's");
                               ("raw_text", JStr "resume");
                               ("parsed_data", JNull);
                               ("embedding", JArr [JNum (3 # 5); JNum (-4 # 5)]);
                               ("uploaded_at", JStr "2025-01-02T00:00:00Z") ]);
                       ("similarity_score", JInt 60);
                       ("matched_skills", JArr []);
                       ("highlights",
                        JArr [ JStr "0 years of experience";
                               JStr "0 matching skills";
                               JStr "Bachelor's" ]) ] ] |} /\
  response (POST Sample.cosine Sample.backend_down (Sample.db_of [] []) "jd-1")
  = response (POST Sample.cosine (Sample.backend_up []) (Sample.db_of [] []) "jd-1").
Proof.
  split; [reflexivity |]. repeat split; vm_compute; reflexivity.
Qed.

Lemma matchResult_json_untagged (m : MatchResult) :
  untagged resume_columns (matchResult_json m).
Proof.
  split; [reflexivity |]. exists (resume_json (resume m)). split; reflexivity.
Qed.

Lemma formattedResult_untagged (result : BackendResult) :
  untagged backend_members (formattedResult result).
Proof.
  split; [reflexivity |]. eexists. split; reflexivity.
Qed.

Lemma Forall_map_all {A B : Type} (P : B -> Prop) (f : A -> B) (l : list A) :
  (forall x, P (f x)) -> Forall P (map f l).
Proof.
  intros HP. induction l as [|x l IH]; cbn [map]; constructor; auto.
Qed.

(** C6, amended: the body of a 200 response is a bare array.  Either the
    backend answered with a status that is not OK, the warning of the
    fallback is on the server console and every element of the array is a
    result that the fallback computed from the resumes of the store; or no
    warning is written and every element is a result of the backend: the
    two are never mixed.  In both cases an element has the members resume,
    similarity_score, matched_skills and highlights and no other, and its
    resume the columns of the table, or the seven members that the handler
    copies from the backend, and no other: the response carries no flag
    and no tag of the strategy. *)
Theorem strategy_only_in_log {cm : CaseMapping}
  (cosineSimilarity : list Q -> list Q -> option Q)
  (env : Env) (db : DB) (jid : string) :
  status (response (POST cosineSimilarity env db jid)) = 200%Z ->
  exists items,
    body (response (POST cosineSimilarity env db jid)) = JArr items /\
    ((backend env = BackendNotOk /\
      In backend_warning (log (POST cosineSimilarity env db jid)) /\
      Forall (untagged resume_columns) items /\
      exists jd ms,
        select_job_description env db jid = Some jd /\
        matchResults cosineSimilarity jd (resumes db) = Some ms /\
        items = map matchResult_json ms)
     \/
     (~ In backend_warning (log (POST cosineSimilarity env db jid)) /\
      Forall (untagged backend_members) items /\
      exists data rs,
        backend env = BackendOk data /\ results data = Some rs /\
        items = map formattedResult rs)).
Proof.
  unfold POST, select_resumes.
  destruct (select_job_description env db jid) as [jd|]; [| discriminate].
  destruct (resumes_query_error env); [discriminate |].
  destruct (backend env) as [| | data]; [discriminate | |].
  - unfold fallback.
    destruct (matchResults cosineSimilarity jd (resumes db)) as [ms|] eqn:Hms;
      [| discriminate].
    intros _. exists (map matchResult_json ms).
    split; [now rewrite replace_matches_response |].
    left. split; [reflexivity |]. split; [| split].
    + unfold replace_matches.
      destruct (insert_match_results _ _ _). cbn [log]. now left.
    + apply Forall_map_all. apply matchResult_json_untagged.
    + now exists jd, ms.
  - unfold use_backend. destruct (success data); cbn [negb]; [| discriminate].
    destruct (results data) as [rs|] eqn:Hrs; [| discriminate].
    intros _. exists (map formattedResult rs).
    split; [now rewrite replace_matches_response |].
    right. split; [| split].
    + unfold replace_matches.
      destruct (insert_match_results _ _ _) as [[err|] db2]; cbn [log app].
      * intros [H | []]. discriminate.
      * intros [].
    + apply Forall_map_all. apply formattedResult_untagged.
    + now exists data, rs.
Qed.

Lemma strategy_only_in_log_witness :
  backend Sample.backend_down = BackendNotOk /\
  log (POST Sample.cosine Sample.backend_down
         (Sample.db_of Sample.pool Sample.stale) "jd-1")
  = [backend_warning] /\
  exists items,
    body (response (POST Sample.cosine Sample.backend_down
                      (Sample.db_of Sample.pool Sample.stale) "jd-1"))
    = JArr items /\
    items = map matchResult_json Sample.ranked /\
    Forall (untagged resume_columns) items.
Proof.
  assert (Hst : status (response (POST Sample.cosine Sample.backend_down
                                    (Sample.db_of Sample.pool Sample.stale) "jd-1"))
                = 200%Z) by (vm_compute; reflexivity).
  destruct (strategy_only_in_log Sample.cosine Sample.backend_down
              (Sample.db_of Sample.pool Sample.stale) "jd-1" Hst)
    as (items & Hbody &
        [(Hb & _ & Hu & jd & ms & Hjd & Hms & Hitems)
        | (_ & _ & data & rs & Hb & _)]).
  - split; [exact Hb |]. split; [vm_compute; reflexivity |].
    exists items. split; [exact Hbody |]. split; [| exact Hu].
    rewrite Hitems. vm_compute in Hjd. injection Hjd as <-.
    vm_compute in Hms. injection Hms as <-.
    vm_compute. reflexivity.
  - discriminate Hb.
Defined.

(** ** A resume without embedding (C5) *)




(** ** The fallback stores what it returns *)

Lemma select_job_description_In (env : Env) (db : DB) (jid : string)
  (jd : JobDescription) :
  select_job_description env db jid = Some jd ->
  In jd (job_descriptions db) /\ jd_id jd = jid.
Proof.
  unfold select_job_description. destruct (jd_query_fails env); [discriminate |].
  destruct (filter _ (job_descriptions db)) as [|j [|]] eqn:E; try discriminate.
  intros [= ->].
  assert (H : In jd (filter (fun j => jd_id j =? jid) (job_descriptions db)))
    by (rewrite E; now left).
  apply filter_In in H as [Hin Heq]. now apply String.eqb_eq in Heq.
Qed.

Lemma NoDup_map_pair {A : Type} (f : A -> string) (a : string) (l : list A) :
  NoDup (map f l) -> NoDup (map (fun x => (a, f x)) l).
Proof.
  induction l as [|x l IH]; cbn [map]; [constructor |].
  intros H. inversion H as [|? ? Hx Hl]; subst.
  constructor; [| now apply IH].
  intros Hin. apply Hx. apply in_map_iff in Hin as (y & [= Hy] & Hin).
  apply in_map_iff. now exists y.
Qed.

Lemma matchResults_total {cm : CaseMapping} (cosineSimilarity : list Q -> list Q -> option Q)
  (jd : JobDescription) (rs : list Resume) :
  Forall (fun r => matchResult cosineSimilarity jd r <> None) rs ->
  exists ms, matchResults cosineSimilarity jd rs = Some ms.
Proof.
  intros H. destruct (map_throwing_total _ _ H) as [l Hl].
  unfold matchResults. rewrite Hl. now eexists.
Qed.

(** The primary key of [resumes] makes the rows of the fallback distinct,
    and they refer to rows that exist: without a fault, the insert is
    accepted. *)
Lemma fallback_accepted {cm : CaseMapping} (cosineSimilarity : list Q -> list Q -> option Q)
  (env : Env) (db : DB) (jid : string) (jd : JobDescription)
  (ms : list MatchResult) :
  select_job_description env db jid = Some jd ->
  matchResults cosineSimilarity jd (resumes db) = Some ms ->
  NoDup (map id (resumes db)) ->
  insert_fault env = None ->
  accepted env db (matchInserts jid ms) = true.
Proof.
  intros Hjd Hms Hpk Hf. unfold accepted. rewrite Hf.
  apply andb_true_iff. split.
  - apply distinct_NoDup. unfold matchInserts. rewrite map_map.
    unfold key. cbn [job_description_id resume_id].
    apply (NoDup_map_pair (fun m => id (resume m)) jid ms).
    rewrite <- (map_map resume id).
    eapply Permutation_NoDup.
    + symmetry. apply Permutation_map. apply (matchResults_resumes _ _ _ _ Hms).
    + now apply filter_keeps_distinct.
  - unfold foreign_keys_ok. apply forallb_forall. intros row Hrow.
    unfold matchInserts in Hrow. apply in_map_iff in Hrow as (m & <- & Hm).
    cbn [job_description_id resume_id]. apply andb_true_iff. split.
    + apply existsb_exists. exists jd.
      destruct (select_job_description_In _ _ _ _ Hjd) as [Hin Hid].
      split; [assumption | now apply String.eqb_eq].
    + destruct (matchResults_In _ _ _ _ _ Hms Hm) as (r & Hr & Hres).
      apply matchResult_resume in Hres. subst r.
      apply existsb_exists. exists (resume m).
      split; [assumption | apply String.eqb_refl].
Qed.

Lemma fallback_stores_results {cm : CaseMapping} (cosineSimilarity : list Q -> list Q -> option Q)
  (env : Env) (db : DB) (jid : string) (jd : JobDescription)
  (ms : list MatchResult) :
  select_job_description env db jid = Some jd ->
  resumes_query_error env = None ->
  backend env = BackendNotOk ->
  matchResults cosineSimilarity jd (resumes db) = Some ms ->
  NoDup (map id (resumes db)) ->
  delete_fails env = false ->
  insert_fault env = None ->
  match_results (store (POST cosineSimilarity env db jid)) =
  others jid (match_results db) ++ matchInserts jid ms.
Proof.
  intros Hjd Hq Hb Hms Hpk Hd Hf.
  assert (Hp : planned cosineSimilarity env db jid = Some (matchInserts jid ms)).
  { unfold planned, select_resumes. now rewrite Hjd, Hq, Hb, Hms. }
  rewrite POST_store, Hp, store_after_rows;
    [| assumption | now apply (planned_all_of _ _ _ _ _ Hp)].
  now rewrite (fallback_accepted _ _ _ _ _ _ Hjd Hms Hpk Hf).
Qed.

(* ================================================================== *)
(** * Further properties of the handler *)
(* ================================================================== *)

(** ** What a request leaves alone *)

Lemma others_app_all_of (jid : string) (rows ins : list MatchRow) :
  all_of jid ins -> others jid (rows ++ ins) = others jid rows.
Proof.
  intros H. unfold others at 1. rewrite filter_app.
  fold (others jid rows). fold (others jid ins).
  now rewrite (others_all_of _ _ H), app_nil_r.
Qed.

Lemma store_after_others (env : Env) (db : DB) (jid : string)
  (ins : list MatchRow) :
  all_of jid ins ->
  others jid (match_results (store_after env db jid ins))
  = others jid (match_results db).
Proof.
  intros Hins.
  assert (Hd : others jid (match_results (delete_match_results env db jid))
               = others jid (match_results db)).
  { unfold delete_match_results. destruct (delete_fails env); [reflexivity |].
    cbn [match_results with_match_results].
    fold (others jid (match_results db)). apply others_idem. }
  unfold store_after, insert_match_results.
  destruct (insert_fault env); [exact Hd |].
  destruct (unique_ok _ ins); cbn [negb snd]; [| exact Hd].
  destruct (foreign_keys_ok _ ins); cbn [negb snd]; [| exact Hd].
  cbn [match_results with_match_results].
  now rewrite (others_app_all_of _ _ _ Hins).
Qed.

(** X1: a request, whatever its outcome, leaves the job descriptions and
    the resumes of the store as they were, and every match row of the
    other job descriptions, in their order. *)
Theorem request_scoped_to_job {cm : CaseMapping}
  (cosineSimilarity : list Q -> list Q -> option Q)
  (env : Env) (db : DB) (jid : string) :
  job_descriptions (store (POST cosineSimilarity env db jid)) = job_descriptions db /\
  resumes (store (POST cosineSimilarity env db jid)) = resumes db /\
  others jid (match_results (store (POST cosineSimilarity env db jid)))
  = others jid (match_results db).
Proof.
  rewrite POST_store.
  destruct (planned cosineSimilarity env db jid) as [ins|] eqn:Hp.
  - destruct (store_after_documents env db jid ins) as [Hj Hr].
    repeat split; try assumption.
    apply store_after_others. now apply (planned_all_of _ _ _ _ _ Hp).
  - now repeat split.
Qed.

(** X2: a request that is not answered with status 200 leaves the whole
    store as it was. *)
Theorem error_leaves_store {cm : CaseMapping}
  (cosineSimilarity : list Q -> list Q -> option Q)
  (env : Env) (db : DB) (jid : string) :
  status (response (POST cosineSimilarity env db jid)) <> 200%Z ->
  store (POST cosineSimilarity env db jid) = db.
Proof.
  unfold POST.
  destruct (select_job_description env db jid) as [jd|]; [| reflexivity].
  destruct (select_resumes env db) as [msg | rs]; [reflexivity |].
  destruct (backend env) as [| | data]; [reflexivity | |].
  - unfold fallback.
    destruct (matchResults cosineSimilarity jd rs) as [ms|]; [| reflexivity].
    rewrite replace_matches_response. intros H. now contradiction H.
  - unfold use_backend. destruct (success data); cbn [negb]; [| reflexivity].
    destruct (results data) as [rs'|]; [| reflexivity].
    rewrite replace_matches_response. intros H. now contradiction H.
Qed.

Lemma error_leaves_store_witness :
  status (response (POST Sample.cosine
                      (Sample.backend_up []) (Sample.db_of Sample.pool Sample.stale)
                      "jd-404")) = 404%Z /\
  store (POST Sample.cosine (Sample.backend_up [])
           (Sample.db_of Sample.pool Sample.stale) "jd-404")
  = Sample.db_of Sample.pool Sample.stale.
Proof.
  split; [reflexivity |].
  apply (error_leaves_store Sample.cosine (Sample.backend_up [])
           (Sample.db_of Sample.pool Sample.stale) "jd-404").
  vm_compute. discriminate.
Defined.

(** ** When the fallback runs *)

(** X3: the warning of the fallback is written exactly when the job
    description is found, the resumes are fetched and the backend answers
    with a status that is not OK.  A backend that cannot be reached, so that
    [fetch] rejects, does not start the fallback. *)
Theorem fallback_iff_backend_not_ok {cm : CaseMapping}
  (cosineSimilarity : list Q -> list Q -> option Q)
  (env : Env) (db : DB) (jid : string) :
  In backend_warning (log (POST cosineSimilarity env db jid)) <->
  (exists jd, select_job_description env db jid = Some jd) /\
  resumes_query_error env = None /\
  backend env = BackendNotOk.
Proof.
  unfold POST, select_resumes.
  destruct (select_job_description env db jid) as [jd|].
  2:{ cbn [log In]. split; [contradiction | intros [[jd' H] _]; discriminate]. }
  destruct (resumes_query_error env) as [msg|].
  { cbn [log In]. split; [contradiction | intros (_ & H & _); discriminate]. }
  destruct (backend env) as [| | data].
  - unfold caught. cbn [log app In]. split.
    + intros [H | []]. discriminate.
    + intros (_ & _ & H). discriminate.
  - split; [intros _; repeat split; now exists jd |]. intros _.
    unfold fallback.
    destruct (matchResults cosineSimilarity jd (resumes db)) as [ms|].
    + unfold replace_matches. destruct (insert_match_results _ _ _).
      cbn [log]. apply in_or_app. left. now left.
    + unfold caught. cbn [log]. apply in_or_app. left. now left.
  - split; [| intros (_ & _ & H); discriminate].
    unfold use_backend. destruct (success data); cbn [negb log In];
      [| contradiction].
    destruct (results data) as [rs|].
    + unfold replace_matches.
      destruct (insert_match_results _ _ _) as [[err|] db2]; cbn [log app In].
      * intros [H | []]. discriminate.
      * contradiction.
    + unfold caught. cbn [log app In]. intros [H | []]. discriminate.
Qed.

(** ** Failures inside the fallback *)

Lemma map_throwing_None {A B : Type} (f : A -> option B) (l : list A) (x : A) :
  In x l -> f x = None -> map_throwing f l = None.
Proof.
  intros Hin Hx. induction l as [|y l IH]; [contradiction |].
  cbn [map_throwing]. destruct Hin as [-> | Hin].
  - now rewrite Hx.
  - destruct (f y); [| reflexivity]. now rewrite (IH Hin).
Qed.

(** X4: when the cosine similarity throws for one resume, the fallback is
    aborted as a whole: the answer is the 500 error Failed to perform
    matching, no result is returned for any resume, and the store, not yet
    touched, keeps the rows of the earlier match. *)
Theorem cosine_exception_aborts {cm : CaseMapping}
  (cosineSimilarity : list Q -> list Q -> option Q)
  (env : Env) (db : DB) (jid : string) (jd : JobDescription) (r : Resume) :
  select_job_description env db jid = Some jd ->
  resumes_query_error env = None ->
  backend env = BackendNotOk ->
  In r (resumes db) ->
  matchResult cosineSimilarity jd r = None ->
  POST cosineSimilarity env db jid =
  {| response := {| status := 500;
                    body := JObj [("error", JStr "Failed to perform matching")] |};
     store := db;
     log := [backend_warning; console_error "Error performing matching:"] |}.
Proof.
  intros Hjd Hq Hb Hr Hthrow. unfold POST, select_resumes.
  rewrite Hjd, Hq, Hb. unfold fallback, matchResults.
  now rewrite (map_throwing_None _ _ _ Hr Hthrow).
Qed.

Lemma cosine_exception_aborts_witness :
  status (response (POST Sample.cosine Sample.backend_down
                      (Sample.db_of [Sample.ann;
                                     Sample.cv "r-x" None None None (Some [1])]
                         Sample.stale) "jd-1")) = 500%Z /\
  match_results (store (POST Sample.cosine Sample.backend_down
                          (Sample.db_of [Sample.ann;
                                         Sample.cv "r-x" None None None (Some [1])]
                             Sample.stale) "jd-1")) = Sample.stale.
Proof.
  rewrite (cosine_exception_aborts Sample.cosine Sample.backend_down
             (Sample.db_of [Sample.ann; Sample.cv "r-x" None None None (Some [1])]
                Sample.stale)
             "jd-1" Sample.the_jd (Sample.cv "r-x" None None None (Some [1]))
             eq_refl eq_refl eq_refl (or_intror (or_introl eq_refl)) eq_refl).
  split; reflexivity.
Defined.

Lemma matchResults_no_jd_embedding {cm : CaseMapping}
  (cosineSimilarity : list Q -> list Q -> option Q)
  (jd : JobDescription) (rs : list Resume) :
  jd_embedding jd = None -> matchResults cosineSimilarity jd rs = Some [].
Proof.
  intros H. unfold matchResults.
  assert (E : map_throwing (matchResult cosineSimilarity jd) rs
              = Some (map (fun _ => None) rs)).
  { induction rs as [|r rs IH]; [reflexivity |].
    cbn [map_throwing map]. unfold matchResult at 1. rewrite H. now rewrite IH. }
  rewrite E. f_equal. clear E.
  induction rs as [|r rs IH]; [reflexivity | exact IH].
Qed.

(** X5: when the job description has no embedding, the fallback answers
    200 with an empty array, whatever the resumes; and, the delete done, it
    leaves no match row of the job description in the store: the rows of an
    earlier match are lost and none replaces them. *)
Theorem no_jd_embedding_empties_matches {cm : CaseMapping}
  (cosineSimilarity : list Q -> list Q -> option Q)
  (env : Env) (db : DB) (jid : string) (jd : JobDescription) :
  select_job_description env db jid = Some jd ->
  resumes_query_error env = None ->
  backend env = BackendNotOk ->
  jd_embedding jd = None ->
  response (POST cosineSimilarity env db jid)
  = {| status := 200; body := JArr [] |} /\
  (delete_fails env = false ->
   match_results (store (POST cosineSimilarity env db jid))
   = others jid (match_results db)).
Proof.
  intros Hjd Hq Hb He.
  assert (Hp : planned cosineSimilarity env db jid = Some []).
  { unfold planned, select_resumes. rewrite Hjd, Hq, Hb.
    now rewrite (matchResults_no_jd_embedding _ _ _ He). }
  split.
  - unfold POST, select_resumes. rewrite Hjd, Hq, Hb. unfold fallback.
    rewrite (matchResults_no_jd_embedding _ _ _ He).
    apply replace_matches_response.
  - intros Hd. rewrite POST_store, Hp, store_after_rows;
      [| assumption | constructor].
    destruct (accepted env db []); apply app_nil_r.
Qed.

Lemma no_jd_embedding_empties_matches_witness :
  response (POST Sample.cosine Sample.backend_down
              {| job_descriptions := [Sample.jd "jd-1" (Some ["Python"]) None];
                 resumes := Sample.pool;
                 match_results := Sample.stale |} "jd-1")
  = {| status := 200; body := JArr [] |} /\
  map key (match_results
             (store (POST Sample.cosine Sample.backend_down
                       {| job_descriptions := [Sample.jd "jd-1" (Some ["Python"]) None];
                          resumes := Sample.pool;
                          match_results := Sample.stale |} "jd-1")))
  = [("jd-9", "r-a")].
Proof.
  destruct (no_jd_embedding_empties_matches Sample.cosine Sample.backend_down
              {| job_descriptions := [Sample.jd "jd-1" (Some ["Python"]) None];
                 resumes := Sample.pool;
                 match_results := Sample.stale |} "jd-1"
              (Sample.jd "jd-1" (Some ["Python"]) None)
              eq_refl eq_refl eq_refl eq_refl) as [Hr Hs].
  split; [exact Hr |]. rewrite (Hs eq_refl). reflexivity.
Defined.

(** ** What the fallback stores *)

(** X6: in the fallback, when no call of the cosine similarity throws, the
    ids of the resumes are distinct (the primary key) and the store has no
    fault, the insert is accepted and no error is logged: the table holds
    the rows of the other job descriptions, followed by one row for each
    result of the response, in the order of the ranking. *)
Theorem fallback_persists_ranking {cm : CaseMapping}
  (cosineSimilarity : list Q -> list Q -> option Q)
  (env : Env) (db : DB) (jid : string) (jd : JobDescription) :
  select_job_description env db jid = Some jd ->
  resumes_query_error env = None ->
  backend env = BackendNotOk ->
  Forall (fun r => matchResult cosineSimilarity jd r <> None) (resumes db) ->
  NoDup (map id (resumes db)) ->
  delete_fails env = false ->
  insert_fault env = None ->
  exists ms,
    body (response (POST cosineSimilarity env db jid))
    = JArr (map matchResult_json ms) /\
    log (POST cosineSimilarity env db jid) = [backend_warning] /\
    match_results (store (POST cosineSimilarity env db jid))
    = others jid (match_results db) ++ matchInserts jid ms.
Proof.
  intros Hjd Hq Hb Hok Hpk Hd Hf.
  destruct (matchResults_total _ _ _ Hok) as [ms Hms]. exists ms.
  split; [| split].
  - unfold POST, select_resumes. rewrite Hjd, Hq, Hb. unfold fallback.
    rewrite Hms. now rewrite replace_matches_response.
  - pose proof (fallback_accepted _ _ _ _ _ _ Hjd Hms Hpk Hf) as Hacc.
    unfold accepted in Hacc. rewrite Hf in Hacc.
    apply andb_true_iff in Hacc as [Hdist Hfk].
    unfold POST, select_resumes. rewrite Hjd, Hq, Hb. unfold fallback.
    rewrite Hms. unfold replace_matches, insert_match_results. rewrite Hf.
    assert (Hall : all_of jid (matchInserts jid ms)).
    { apply Forall_forall. intros m Hm. unfold matchInserts in Hm.
      apply in_map_iff in Hm as (x & <- & _). reflexivity. }
    assert (Hu : unique_ok (delete_match_results env db jid) (matchInserts jid ms)
                 = true).
    { unfold unique_ok, delete_match_results. rewrite Hd, Hdist.
      cbn [match_results with_match_results andb].
      apply (no_clash_with_others jid (match_results db) _ Hall). }
    assert (Hk : foreign_keys_ok (delete_match_results env db jid)
                   (matchInserts jid ms) = true).
    { unfold delete_match_results. rewrite Hd. exact Hfk. }
    rewrite Hu, Hk. reflexivity.
  - now apply fallback_stores_results with (jd := jd).
Qed.

Lemma fallback_persists_ranking_witness :
  exists ms,
    body (response (POST Sample.cosine Sample.backend_down
                      (Sample.db_of Sample.pool Sample.stale) "jd-1"))
    = JArr (map matchResult_json ms) /\
    map resume_id
      (match_results (store (POST Sample.cosine Sample.backend_down
                               (Sample.db_of Sample.pool Sample.stale) "jd-1")))
    = "r-a" :: map (fun m => id (resume m)) ms.
Proof.
  destruct (fallback_persists_ranking Sample.cosine Sample.backend_down
              (Sample.db_of Sample.pool Sample.stale) "jd-1" Sample.the_jd
              eq_refl eq_refl eq_refl) as (ms & Hb & _ & Hs).
  - repeat (apply Forall_cons; [vm_compute; discriminate |]). apply Forall_nil.
  - repeat (constructor; [cbn; intuition discriminate |]). constructor.
  - reflexivity.
  - reflexivity.
  - exists ms. split; [exact Hb |]. rewrite Hs.
    rewrite map_app. unfold matchInserts. rewrite map_map. reflexivity.
Defined.

Lemma planned_unshortlisted {cm : CaseMapping} (cosineSimilarity : list Q -> list Q -> option Q)
  (env : Env) (db : DB) (jid : string) (ins : list MatchRow) :
  planned cosineSimilarity env db jid = Some ins ->
  Forall (fun m => is_shortlisted m = false) ins.
Proof.
  unfold planned.
  destruct (select_job_description env db jid) as [jd|]; [| discriminate].
  destruct (select_resumes env db) as [msg | rs]; [discriminate |].
  destruct (backend env) as [| | data]; [discriminate | |].
  - destruct (matchResults cosineSimilarity jd rs) as [ms|]; [| discriminate].
    intros [= <-]. unfold matchInserts. apply Forall_forall.
    intros m Hm. apply in_map_iff in Hm as (x & <- & _). reflexivity.
  - destruct (success data); [| discriminate].
    destruct (results data) as [rs'|]; [| discriminate].
    intros [= <-]. unfold backendInserts. apply Forall_forall.
    intros m Hm. apply in_map_iff in Hm as (x & <- & _). reflexivity.
Qed.

Lemma answered_planned {cm : CaseMapping} (cosineSimilarity : list Q -> list Q -> option Q)
  (env : Env) (db : DB) (jid : string) :
  status (response (POST cosineSimilarity env db jid)) = 200%Z ->
  exists ins, planned cosineSimilarity env db jid = Some ins.
Proof.
  unfold POST, planned.
  destruct (select_job_description env db jid) as [jd|]; [| discriminate].
  destruct (select_resumes env db) as [msg | rs]; [discriminate |].
  destruct (backend env) as [| | data]; [discriminate | |].
  - unfold fallback.
    destruct (matchResults cosineSimilarity jd rs) as [ms|]; [| discriminate].
    intros _. now eexists.
  - unfold use_backend. destruct (success data); cbn [negb]; [| discriminate].
    destruct (results data) as [rs'|]; [| discriminate].
    intros _. now eexists.
Qed.

(** X7: after a request answered with status 200, the delete done, no
    match row of the job description is shortlisted: matching again puts
    the shortlist of the job description back to empty, in both branches
    and whether the insert is accepted or not. *)
Theorem rematch_clears_shortlist {cm : CaseMapping}
  (cosineSimilarity : list Q -> list Q -> option Q)
  (env : Env) (db : DB) (jid : string) (row : MatchRow) :
  status (response (POST cosineSimilarity env db jid)) = 200%Z ->
  delete_fails env = false ->
  In row (match_results (store (POST cosineSimilarity env db jid))) ->
  job_description_id row = jid ->
  is_shortlisted row = false.
Proof.
  intros Hst Hd Hrow Hjid.
  destruct (answered_planned _ _ _ _ Hst) as [ins Hp].
  rewrite POST_store, Hp, store_after_rows in Hrow;
    [| assumption | now apply (planned_all_of _ _ _ _ _ Hp)].
  apply in_app_or in Hrow as [Hrow | Hrow].
  - apply filter_In in Hrow as [_ Hne].
    apply negb_true_iff, String.eqb_neq in Hne. contradiction.
  - pose proof (planned_unshortlisted _ _ _ _ _ Hp) as Hun.
    rewrite Forall_forall in Hun.
    destruct (accepted env db ins); [now apply Hun | contradiction].
Qed.

Lemma rematch_clears_shortlist_witness :
  existsb is_shortlisted (match_results (Sample.db_of Sample.pool Sample.stale))
  = true /\
  forallb (fun row => negb (is_shortlisted row))
    (match_results (store (POST Sample.cosine Sample.backend_down
                             (Sample.db_of Sample.pool Sample.stale) "jd-1")))
  = true.
Proof.
  assert (Hst : status (response (POST Sample.cosine Sample.backend_down
                                    (Sample.db_of Sample.pool Sample.stale) "jd-1"))
                = 200%Z) by (vm_compute; reflexivity).
  split; [reflexivity |]. apply forallb_forall. intros row Hrow.
  destruct (String.eqb_spec (job_description_id row) "jd-1") as [E | E].
  - rewrite (rematch_clears_shortlist Sample.cosine Sample.backend_down
               (Sample.db_of Sample.pool Sample.stale) "jd-1" row
               Hst eq_refl Hrow E).
    reflexivity.
  - vm_compute in Hrow.
    repeat (destruct Hrow as [<- | Hrow]; [now try reflexivity; try contradiction E |]).
    contradiction.
Defined.

(** ** The precision of the score *)

Lemma Math_round_near (x : Q) :
  x - (1 # 2) < inject_Z (Math_round x) /\ inject_Z (Math_round x) <= x + (1 # 2).
Proof.
  unfold Math_round. split.
  - pose proof (Qlt_floor (x + (1 # 2))) as Hx.
    rewrite inject_Z_plus in Hx. change (inject_Z 1) with 1%Q in Hx. lra.
  - apply Qfloor_le.
Qed.

(** X8: the score is the integer nearest to the product of the cosine
    similarity by 100 as a double, not to the exact percentage: the two
    roundings to a double, of the similarity and of the product, can move
    a percentage across a half.  For a cosine similarity between -1 and 1
    the score is within one half and 2^-45 of the exact percentage. *)
Theorem score_nearest_percent (c : Q) :
  -1 <= c <= 1 ->
  c * 100 - (1 # 2) - pow2 (-45) < inject_Z (score c) /\
  inject_Z (score c) <= c * 100 + (1 # 2) + pow2 (-45).
Proof.
  intros [Hl Hu].
  assert (E1 : c - pow2 (1 - 54) <= double c <= c + pow2 (1 - 54)).
  { apply double_error; [change (pow2 1) with 2; lra | | lia].
    change (pow2 1) with 2. lra. }
  assert (E2 : double c * 100 - pow2 (7 - 54) <= double (double c * 100)
               <= double c * 100 + pow2 (7 - 54)).
  { assert (H1 : - inject_Z 1 <= double c) by (apply double_ge; [lia | exact Hl]).
    assert (H2 : double c <= inject_Z 1) by (apply double_le; [lia | exact Hu]).
    change (inject_Z 1) with 1 in H1, H2.
    apply double_error; [change (pow2 7) with 128; lra | | lia].
    change (pow2 7) with 128. lra. }
  assert (P : 100 * pow2 (1 - 54) + pow2 (7 - 54) < pow2 (-45))
    by (vm_compute; reflexivity).
  unfold score, times. rewrite double_100.
  pose proof (Math_round_near (double (double c * 100))) as [Hn1 Hn2].
  lra.
Qed.

(** The cosine similarity 57/200: the exact percentage 28.5 rounds to 29,
    the product of the doubles is below 28.5 and the score is 28. *)
Lemma score_nearest_percent_witness :
  score (57 # 200) = 28%Z /\
  Math_round ((57 # 200) * 100) = 29%Z /\
  times (57 # 200) 100 < 57 # 2 /\
  (57 # 200) * 100 - (1 # 2) - pow2 (-45) < inject_Z (score (57 # 200)) /\
  inject_Z (score (57 # 200)) <= (57 # 200) * 100 + (1 # 2) + pow2 (-45).
Proof.
  split; [vm_compute; reflexivity |]. split; [vm_compute; reflexivity |].
  split; [vm_compute; reflexivity |].
  apply (score_nearest_percent (57 # 200)). split; lra.
Defined.

(** ** Further properties of the skill matcher *)

Lemma includes_empty (s : string) : includes s "" = true.
Proof. destruct s; reflexivity. Qed.

Lemma filter_all {A : Type} (p : A -> bool) (l : list A) :
  (forall x, In x l -> p x = true) -> filter p l = l.
Proof.
  induction l as [|x l IH]; intros H; [reflexivity |].
  cbn [filter]. rewrite (H x (or_introl eq_refl)). f_equal.
  apply IH. intros y Hy. apply H. now right.
Qed.

(** X9: the empty string is contained in every string.  So a job
    description that lists an empty skill matches every skill of every
    resume, and an empty skill of a resume is matched as soon as the job
    description lists any skill. *)
Theorem empty_skill_matches {cm : CaseMapping}
  (jdSkills resumeSkills : list string) :
  (In "" jdSkills -> matchedSkills jdSkills resumeSkills = resumeSkills) /\
  (jdSkills <> [] -> In "" resumeSkills ->
   In "" (matchedSkills jdSkills resumeSkills)).
Proof.
  unfold matchedSkills. split.
  - intros Hin. apply filter_all. intros skill _.
    apply existsb_exists. exists "". split; [assumption |].
    now rewrite toLowerCase_empty, includes_empty, orb_true_r.
  - intros Hne Hin. apply filter_In. split; [assumption |].
    destruct jdSkills as [|j jd]; [contradiction |].
    cbn [existsb]. now rewrite toLowerCase_empty, includes_empty.
Qed.

Lemma empty_skill_matches_witness :
  matchedSkills ["Python"; ""] ["Cobol"; "Knitting"] = ["Cobol"; "Knitting"] /\
  In "" (matchedSkills ["Python"] ["Cobol"; ""]).
Proof.
  destruct (empty_skill_matches ["Python"; ""] ["Cobol"; "Knitting"]) as [H1 _].
  destruct (empty_skill_matches ["Python"] ["Cobol"; ""]) as [_ H2].
  split.
  - apply H1. right. now left.
  - apply H2; [discriminate | right; now left].
Defined.

Lemma existsb_lowered {cm : CaseMapping} (h : string -> bool) (l : list string) :
  existsb (fun j => h (toLowerCase j)) l = existsb h (map toLowerCase l).
Proof.
  induction l as [|j l IH]; [reflexivity |].
  cbn [existsb map]. now rewrite IH.
Qed.

(** X10: the matcher sees a skill through the case mapping of the runtime
    only.  Two lists of job description skills that are the same once
    lowered select the same skills of a resume; and lowering the skills of
    the resume lowers the selection and changes nothing else, provided
    that lowering a lowered skill of the resume changes nothing. *)
Theorem matcher_ignores_case {cm : CaseMapping}
  (jdSkills jdSkills' resumeSkills : list string) :
  (map toLowerCase jdSkills = map toLowerCase jdSkills' ->
   matchedSkills jdSkills resumeSkills = matchedSkills jdSkills' resumeSkills) /\
  (Forall (fun skill => toLowerCase (toLowerCase skill) = toLowerCase skill)
          resumeSkills ->
   matchedSkills jdSkills (map toLowerCase resumeSkills)
   = map toLowerCase (matchedSkills jdSkills resumeSkills)).
Proof.
  unfold matchedSkills. split.
  - intros E. apply filter_ext. intros skill.
    rewrite (existsb_lowered
               (fun j => includes j (toLowerCase skill)
                         || includes (toLowerCase skill) j) jdSkills).
    rewrite (existsb_lowered
               (fun j => includes j (toLowerCase skill)
                         || includes (toLowerCase skill) j) jdSkills').
    now rewrite E.
  - induction 1 as [|skill l Hskill _ IH]; [reflexivity |].
    cbn [map filter]. rewrite Hskill.
    destruct (existsb _ jdSkills); cbn [map]; now rewrite IH.
Qed.

Lemma matcher_ignores_case_witness :
  matchedSkills ["PYTHON"; "sql"] ["Python"; "MySQL"; "Go"]
  = matchedSkills ["python"; "SQL"] ["Python"; "MySQL"; "Go"] /\
  matchedSkills ["PYTHON"; "sql"] ["Python"; "MySQL"; "Go"] = ["Python"; "MySQL"] /\
  matchedSkills ["PYTHON"; "sql"] (map toLowerCase ["Python"; "MySQL"; "Go"])
  = ["python"; "mysql"].
Proof.
  destruct (matcher_ignores_case ["PYTHON"; "sql"] ["python"; "SQL"]
              ["Python"; "MySQL"; "Go"]) as [H1 H2].
  split; [apply H1; reflexivity |]. split; [reflexivity |].
  rewrite H2; [reflexivity |].
  repeat (constructor; [reflexivity |]). constructor.
Defined.

(* ================================================================== *)
(** * Properties of the routes that write the documents *)
(* ================================================================== *)

Import Ingest IngestSpec.

Section IngestFacts.
Variable embed : string -> option (list Q).

Lemma add_resumes_nil (db : DB) : add_resumes db [] = db.
Proof. destruct db. unfold add_resumes. cbn. now rewrite app_nil_r. Qed.

Lemma add_resumes_cons (db : DB) (r : Resume) (rows : list Resume) :
  add_resumes (add_resume db r) rows = add_resumes db (r :: rows).
Proof.
  unfold add_resumes, add_resume. cbn. now rewrite <- app_assoc.
Qed.

(** One turn of the loop that does not throw stores the row of the file,
    if it has one, and pushes it to the results. *)
Lemma upload_one_step (u : Upload) (st : Progress) :
  throws embed u = false ->
  exists written,
    upload_one embed u st =
    Some {| p_store := add_resumes (p_store st) (rows_of embed [u]);
            p_results := p_results st ++ rows_of embed [u];
            p_log := p_log st ++ written |}.
Proof.
  unfold throws, upload_one, rows_of, stored_row. cbn [map filter_Boolean].
  destruct (backend_reply u) as [| | rd]; [discriminate | |].
  - intros _. eexists. cbn [filter_Boolean].
    now rewrite add_resumes_nil, app_nil_r.
  - destruct (resume_text rd) as [text|]; [| discriminate].
    destruct (embed text) as [e|]; [| discriminate].
    intros _. destruct (insert_reply u) as [msg | new_id now].
    + eexists. cbn [filter_Boolean]. now rewrite add_resumes_nil, app_nil_r.
    + exists []. cbn [filter_Boolean]. now rewrite app_nil_r.
Qed.

Lemma upload_one_throws (u : Upload) (st : Progress) :
  throws embed u = true -> upload_one embed u st = None.
Proof.
  unfold throws, upload_one.
  destruct (backend_reply u) as [| | rd]; [reflexivity | discriminate |].
  destruct (resume_text rd) as [text|]; [| reflexivity].
  destruct (embed text); [discriminate | reflexivity].
Qed.

Lemma rows_of_cons (u : Upload) (files : list Upload) :
  rows_of embed (u :: files) = rows_of embed [u] ++ rows_of embed files.
Proof.
  unfold rows_of. cbn [map filter_Boolean].
  destruct (stored_row embed u); reflexivity.
Qed.

(** The loop goes through the files before the first throw, and stores
    and pushes their rows. *)
Lemma upload_loop_run (files : list Upload) (st : Progress) :
  exists written,
    upload_loop embed files st =
    ({| p_store := add_resumes (p_store st) (rows_of embed (before_throw embed files));
        p_results := p_results st ++ rows_of embed (before_throw embed files);
        p_log := p_log st ++ written |},
     existsb (throws embed) files).
Proof.
  revert st. induction files as [|u files IH]; intros st.
  - exists []. cbn. rewrite add_resumes_nil, !app_nil_r. now destruct st.
  - cbn [upload_loop before_throw existsb].
    destruct (throws embed u) eqn:Hu.
    + rewrite (upload_one_throws _ _ Hu). exists []. cbn.
      rewrite add_resumes_nil, !app_nil_r. now destruct st.
    + destruct (upload_one_step u st Hu) as [w1 ->].
      destruct (IH {| p_store := add_resumes (p_store st) (rows_of embed [u]);
                      p_results := p_results st ++ rows_of embed [u];
                      p_log := p_log st ++ w1 |}) as [w2 ->].
      exists (w1 ++ w2). cbn [p_store p_results p_log orb].
      rewrite (rows_of_cons u (before_throw embed files)).
      f_equal. f_equal.
      * unfold add_resumes. cbn. now rewrite <- app_assoc.
      * now rewrite <- app_assoc.
      * now rewrite <- app_assoc.
Qed.

Lemma before_throw_all (files : list Upload) :
  Forall (fun u => throws embed u = false) files ->
  before_throw embed files = files /\ existsb (throws embed) files = false.
Proof.
  induction 1 as [|u files Hu _ [IH1 IH2]]; [now split |].
  cbn [before_throw existsb]. now rewrite Hu, IH1, IH2.
Qed.

Lemma before_throw_prefix (before after : list Upload) (bad : Upload) :
  Forall (fun u => throws embed u = false) before ->
  throws embed bad = true ->
  before_throw embed (before ++ bad :: after) = before /\
  existsb (throws embed) (before ++ bad :: after) = true.
Proof.
  intros Hb Hbad. induction Hb as [|u before Hu _ [IH1 IH2]].
  - cbn [app before_throw existsb]. now rewrite Hbad.
  - cbn [app before_throw existsb]. now rewrite Hu, IH1, IH2.
Qed.

Lemma rows_of_embedded (files : list Upload) :
  Forall (fun r => embedding r <> None) (rows_of embed files).
Proof.
  unfold rows_of. apply Forall_forall. intros r Hr.
  apply In_filter_Boolean, in_map_iff in Hr as (u & Hu & _).
  unfold stored_row in Hu.
  destruct (backend_reply u) as [| | rd]; try discriminate.
  destruct (insert_reply u) as [msg | new_id now]; try discriminate.
  destruct (resume_text rd) as [text|]; try discriminate.
  destruct (embed text) as [e|]; try discriminate.
  injection Hu as <-. discriminate.
Qed.

(** X11: a file that the backend refuses, or whose row the store refuses,
    is skipped and does not stop the others.  When the loop body throws for
    no file, the answer is 200 with the rows stored for the files, in their
    order, and the store holds these rows after the resumes it had. *)
Theorem upload_skips_failed_files (files : list Upload) (db : DB) :
  Forall (fun u => throws embed u = false) files ->
  response (POST_resumes embed files db)
  = {| status := 200; body := JArr (map resume_json (rows_of embed files)) |} /\
  store (POST_resumes embed files db) = add_resumes db (rows_of embed files) /\
  (forall r, In r (rows_of embed files) <->
             exists u, In u files /\ stored_row embed u = Some r).
Proof.
  intros H. destruct (before_throw_all files H) as [Hb He].
  unfold POST_resumes.
  destruct (upload_loop_run files {| p_store := db; p_results := []; p_log := [] |})
    as [w ->].
  rewrite He, Hb. cbn [p_store p_results p_log app response store].
  split; [reflexivity |]. split; [reflexivity |].
  intros r. unfold rows_of. rewrite In_filter_Boolean, in_map_iff.
  split; intros [u [H1 H2]]; exists u; tauto.
Qed.

(** X12: when the loop body throws for a file, the answer is the 500 error
    Failed to process resumes, which names no resume; yet the rows stored for
    the files before it stay in the store. *)
Theorem upload_exception_keeps_rows
  (before after : list Upload) (bad : Upload) (db : DB) :
  Forall (fun u => throws embed u = false) before ->
  throws embed bad = true ->
  response (POST_resumes embed (before ++ bad :: after) db)
  = {| status := 500;
       body := JObj [("error", JStr "Failed to process resumes")] |} /\
  store (POST_resumes embed (before ++ bad :: after) db)
  = add_resumes db (rows_of embed before).
Proof.
  intros Hb Hbad.
  destruct (before_throw_prefix before after bad Hb Hbad) as [Hp He].
  unfold POST_resumes.
  destruct (upload_loop_run (before ++ bad :: after)
              {| p_store := db; p_results := []; p_log := [] |}) as [w ->].
  rewrite He, Hp. now split.
Qed.

Lemma POST_resumes_store (files : list Upload) (db : DB) :
  store (POST_resumes embed files db)
  = add_resumes db (rows_of embed (before_throw embed files)).
Proof.
  unfold POST_resumes.
  destruct (upload_loop_run files {| p_store := db; p_results := []; p_log := [] |})
    as [w ->].
  now destruct (existsb (throws embed) files).
Qed.

(** X13: whatever the files and the answers, the route adds rows to the
    resumes and changes nothing else in the store; and every row it adds
    has an embedding. *)
Theorem upload_adds_embedded_resumes (files : list Upload) (db : DB) :
  exists rows,
    store (POST_resumes embed files db) = add_resumes db rows /\
    Forall (fun r => embedding r <> None) rows.
Proof.
  exists (rows_of embed (before_throw embed files)).
  split; [apply POST_resumes_store | apply rows_of_embedded].
Qed.

(** The route of the job descriptions stores a row only when it answers
    200; the row has the embedding of the text of the body, and it is the
    last job description of the store.  A failed embedding or a refused
    insert leaves the store as it was. *)
Lemma job_created_with_embedding (b : JobBody) (reply : InsertReply) (db : DB) :
  (status (response (POST_job_descriptions embed b reply db)) <> 200%Z ->
   store (POST_job_descriptions embed b reply db) = db) /\
  (status (response (POST_job_descriptions embed b reply db)) = 200%Z ->
   exists e new_id now,
     embed (job_text b) = Some e /\ reply = Inserted new_id now /\
     store (POST_job_descriptions embed b reply db)
     = add_job db (job_row b e new_id now) /\
     body (response (POST_job_descriptions embed b reply db))
     = job_json (job_row b e new_id now)).
Proof.
  unfold POST_job_descriptions.
  destruct (embed (job_text b)) as [e|]; [| split; [reflexivity | discriminate]].
  destruct reply as [msg | new_id now]; [split; [reflexivity | discriminate] |].
  split; [intros H; now contradiction H |].
  intros _. now exists e, new_id, now.
Qed.

End IngestFacts.

Lemma upload_skips_failed_files_witness :
  response (POST_resumes IngestSample.embed
              [IngestSample.eve; IngestSample.fay; IngestSample.gus; IngestSample.hal]
              IngestSample.empty_store)
  = {| status := 200;
       body := JArr (map resume_json
                       (rows_of IngestSample.embed
                          [IngestSample.eve; IngestSample.hal])) |} /\
  map id (resumes (store (POST_resumes IngestSample.embed
                            [IngestSample.eve; IngestSample.fay;
                             IngestSample.gus; IngestSample.hal]
                            IngestSample.empty_store)))
  = ["r-1"; "r-4"].
Proof.
  destruct (upload_skips_failed_files IngestSample.embed
              [IngestSample.eve; IngestSample.fay; IngestSample.gus; IngestSample.hal]
              IngestSample.empty_store) as (Hr & Hs & _).
  - repeat (apply Forall_cons; [reflexivity |]). apply Forall_nil.
  - split; [rewrite Hr; reflexivity | rewrite Hs; reflexivity].
Defined.

Lemma upload_exception_keeps_rows_witness :
  status (response (POST_resumes IngestSample.embed
                      [IngestSample.eve; IngestSample.ida; IngestSample.hal]
                      IngestSample.empty_store)) = 500%Z /\
  map id (resumes (store (POST_resumes IngestSample.embed
                            [IngestSample.eve; IngestSample.ida; IngestSample.hal]
                            IngestSample.empty_store)))
  = ["r-1"].
Proof.
  destruct (upload_exception_keeps_rows IngestSample.embed
              [IngestSample.eve] [IngestSample.hal] IngestSample.ida
              IngestSample.empty_store) as (Hr & Hs).
  - repeat (apply Forall_cons; [reflexivity |]). apply Forall_nil.
  - reflexivity.
  - cbn [app] in Hr, Hs. rewrite Hr, Hs. split; reflexivity.
Defined.

(** ** From the upload to the ranking *)

Lemma select_added_job (env : Env) (db : DB) (rows : list Resume)
  (j : JobDescription) :
  jd_query_fails env = false ->
  fresh_job_id db (jd_id j) ->
  select_job_description env (add_resumes (add_job db j) rows) (jd_id j) = Some j.
Proof.
  intros Hq Hfresh. unfold select_job_description. rewrite Hq.
  cbn [job_descriptions add_resumes add_job]. rewrite filter_app.
  rewrite filter_none.
  - cbn [filter app]. now rewrite String.eqb_refl.
  - intros x Hx. apply String.eqb_neq. now apply Hfresh.
Qed.

(** X14: a job description created by its route and resumes uploaded by
    theirs are matched without loss.  The job description is created with a
    fresh id; the files are uploaded; the match is then served by the
    fallback, no call of the cosine similarity throwing.  It answers 200,
    and every resume that the upload added to the store has a result in
    the response: none is left out for want of an embedding. *)
Theorem uploaded_resumes_are_ranked {cm : CaseMapping}
  (embed : string -> option (list Q))
  (cosineSimilarity : list Q -> list Q -> option Q)
  (b : JobBody) (files : list Upload) (db : DB) (env : Env)
  (jid now : string) (e : list Q) :
  embed (job_text b) = Some e ->
  fresh_job_id db jid ->
  jd_query_fails env = false ->
  resumes_query_error env = None ->
  backend env = BackendNotOk ->
  Forall (fun r => matchResult cosineSimilarity (job_row b e jid now) r <> None)
         (resumes (store (POST_resumes embed files
                            (store (POST_job_descriptions embed b
                                      (Inserted jid now) db))))) ->
  exists ms,
    response (POST cosineSimilarity env
                (store (POST_resumes embed files
                          (store (POST_job_descriptions embed b
                                    (Inserted jid now) db)))) jid)
    = {| status := 200; body := JArr (map matchResult_json ms) |} /\
    forall r,
      In r (resumes (store (POST_resumes embed files
                              (store (POST_job_descriptions embed b
                                        (Inserted jid now) db))))) ->
      ~ In r (resumes db) ->
      In r (map resume ms).
Proof.
  intros He Hfresh Hq Hr Hb.
  assert (E1 : store (POST_job_descriptions embed b (Inserted jid now) db)
               = add_job db (job_row b e jid now)).
  { unfold POST_job_descriptions. now rewrite He. }
  rewrite E1.
  rewrite (POST_resumes_store embed files (add_job db (job_row b e jid now))).
  pose proof (rows_of_embedded embed (before_throw embed files)) as Hemb.
  set (rows := rows_of embed (before_throw embed files)) in *.
  intros Hok.
  pose proof (select_added_job env db rows (job_row b e jid now) Hq Hfresh) as Hjd.
  cbn [jd_id job_row] in Hjd.
  destruct (matchResults_total _ _ _ Hok) as [ms Hms]. exists ms. split.
  - unfold POST, select_resumes. rewrite Hjd, Hr, Hb. unfold fallback.
    rewrite Hms. apply replace_matches_response.
  - intros r Hin Hnew.
    cbn [resumes add_resumes add_job] in Hin.
    apply in_app_or in Hin as [Hin | Hin]; [contradiction |].
    rewrite Forall_forall in Hemb, Hok.
    eapply Permutation_in;
      [symmetry; apply (matchResults_resumes _ _ _ _ Hms) |].
    apply filter_In. split.
    + cbn [resumes add_resumes add_job]. apply in_or_app. now right.
    + specialize (Hemb r Hin).
      assert (Hin' : In r (resumes (add_resumes (add_job db (job_row b e jid now)) rows)))
        by (cbn [resumes add_resumes add_job]; apply in_or_app; now right).
      specialize (Hok r Hin'). unfold matchResult in *.
      cbn [jd_embedding job_row] in *.
      destruct (embedding r) as [re|]; [| congruence].
      destruct (cosineSimilarity e re); [reflexivity | congruence].
Qed.

Lemma uploaded_resumes_are_ranked_witness :
  exists ms,
    response (POST Sample.cosine Sample.backend_down
                (store (POST_resumes IngestSample.embed
                          [IngestSample.eve; IngestSample.fay; IngestSample.hal]
                          (store (POST_job_descriptions IngestSample.embed
                                    IngestSample.posting
                                    (Inserted "jd-7" "2025-01-31T00:00:00Z")
                                    IngestSample.empty_store)))) "jd-7")
    = {| status := 200; body := JArr (map matchResult_json ms) |} /\
    incl (rows_of IngestSample.embed [IngestSample.eve; IngestSample.hal])
         (map resume ms).
Proof.
  destruct (uploaded_resumes_are_ranked IngestSample.embed Sample.cosine
              IngestSample.posting
              [IngestSample.eve; IngestSample.fay; IngestSample.hal]
              IngestSample.empty_store Sample.backend_down
              "jd-7" "2025-01-31T00:00:00Z" [1; 0])
    as (ms & Hr & Hall).
  - reflexivity.
  - intros j [].
  - reflexivity.
  - reflexivity.
  - reflexivity.
  - repeat (apply Forall_cons; [vm_compute; discriminate |]). apply Forall_nil.
  - exists ms. split; [exact Hr |].
    intros r Hin. apply Hall; [| intros []].
    destruct Hin as [<- | [<- | []]]; [left | right; left]; reflexivity.
Defined.

(* ================================================================== *)
(** * Properties of the pages *)
(* ================================================================== *)

Import Pages PagesSpec.

(** ** The list of the files to upload *)

Lemma filter_index_past {A : Type} (index k : nat) (a : list A) :
  (index < k)%nat ->
  filter_index (fun _ i => negb (i =? index)%nat) k a = a.
Proof.
  revert k. induction a as [|x a IH]; intros k Hk; [reflexivity |].
  cbn [filter_index]. destruct (Nat.eqb_spec k index) as [-> | _]; [lia |].
  cbn [negb]. f_equal. apply IH. lia.
Qed.

Lemma filter_index_from {A : Type} (index k : nat) (a : list A) :
  (k <= index)%nat ->
  filter_index (fun _ i => negb (i =? index)%nat) k a
  = firstn (index - k) a ++ skipn (S (index - k)) a.
Proof.
  revert k. induction a as [|x a IH]; intros k Hk.
  - now rewrite firstn_nil, skipn_nil.
  - cbn [filter_index]. destruct (Nat.eqb_spec k index) as [-> | Hne].
    + cbn [negb]. rewrite Nat.sub_diag. cbn [firstn skipn app].
      apply filter_index_past. lia.
    + cbn [negb]. rewrite IH by lia.
      replace (index - k)%nat with (S (index - S k)) by lia.
      reflexivity.
Qed.

(** X15: pressing the button of the file at an index takes that file, and
    no other, out of the list, the others keeping their order; an index
    past the end changes nothing; and a file just added, which is the last
    of the list, is taken out again by its index. *)
Theorem removeFile_at_index (index : nat) (prev : list File) (f : File) :
  ((index < List.length prev)%nat ->
   removeFile index prev = firstn index prev ++ skipn (S index) prev /\
   S (List.length (removeFile index prev)) = List.length prev) /\
  ((List.length prev <= index)%nat -> removeFile index prev = prev) /\
  removeFile (List.length prev) (handleFileUpload (Some [f]) prev) = prev.
Proof.
  assert (E : forall l : list File,
             removeFile index l = firstn index l ++ skipn (S index) l).
  { intros l. unfold removeFile. rewrite filter_index_from by lia.
    now rewrite Nat.sub_0_r. }
  split; [| split].
  - intros H. rewrite E. split; [reflexivity |].
    rewrite length_app, length_firstn, length_skipn. lia.
  - intros H. rewrite E, firstn_all2, skipn_all2 by lia. apply app_nil_r.
  - unfold removeFile, handleFileUpload. cbn [or_array].
    rewrite filter_index_from by lia. rewrite Nat.sub_0_r.
    rewrite firstn_app, Nat.sub_diag, firstn_all. cbn [firstn].
    rewrite skipn_all2 by (rewrite length_app; cbn; lia).
    now rewrite !app_nil_r.
Qed.

Lemma removeFile_at_index_witness :
  removeFile 1 [ {| name := "a.pdf"; size := 10 |};
                 {| name := "b.pdf"; size := 20 |};
                 {| name := "c.pdf"; size := 30 |} ]
  = [ {| name := "a.pdf"; size := 10 |}; {| name := "c.pdf"; size := 30 |} ] /\
  removeFile 3 [ {| name := "a.pdf"; size := 10 |};
                 {| name := "b.pdf"; size := 20 |};
                 {| name := "c.pdf"; size := 30 |} ]
  = [ {| name := "a.pdf"; size := 10 |};
      {| name := "b.pdf"; size := 20 |};
      {| name := "c.pdf"; size := 30 |} ].
Proof.
  destruct (removeFile_at_index 1
              [ {| name := "a.pdf"; size := 10 |};
                {| name := "b.pdf"; size := 20 |};
                {| name := "c.pdf"; size := 30 |} ]
              {| name := "d.pdf"; size := 40 |}) as (H1 & _ & _).
  destruct (removeFile_at_index 3
              [ {| name := "a.pdf"; size := 10 |};
                {| name := "b.pdf"; size := 20 |};
                {| name := "c.pdf"; size := 30 |} ]
              {| name := "d.pdf"; size := 40 |}) as (_ & H2 & _).
  split.
  - destruct H1 as [H1 _]; [cbn; lia |]. rewrite H1. reflexivity.
  - apply H2. cbn. lia.
Defined.

(** ** The submission of the files *)

Lemma uploaded_uploads (files : list File) (rest : list Effect) :
  filter_Boolean (map uploaded (map upload files ++ rest))
  = files ++ filter_Boolean (map uploaded rest).
Proof.
  induction files as [|f files IH]; [reflexivity |].
  cbn [map app filter_Boolean uploaded]. now rewrite IH.
Qed.

Lemma promises_fulfilled (server : File -> UploadAnswer) (files : list File) :
  (exists results, map_throwing (uploadPromise server) files = Some results) <->
  Forall (fun f => exists body, server f = AnswersOk body) files.
Proof.
  split.
  - intros [results H]. apply map_throwing_Forall2 in H.
    induction H as [|f y files results Hf _ IH]; constructor; [| assumption].
    unfold uploadPromise in Hf.
    destruct (server f) as [| | body]; try discriminate. now exists body.
  - intros H. apply map_throwing_total.
    eapply Forall_impl; [| exact H]. intros f [body Hf].
    unfold uploadPromise. now rewrite Hf.
Qed.

(** X16: a submission without file does nothing at all.  A submission of
    files sends every file to the backend, once and in order, whatever the
    answers; it goes to the dashboard exactly when every upload is
    answered OK, and shows the alert, which names no file, otherwise; and
    it ends by putting [isUploading] back to false. *)
Theorem submit_all_or_alert (server : File -> UploadAnswer) (files : list File) :
  handleSubmit server [] = [] /\
  (files <> [] ->
   filter_Boolean (map uploaded (handleSubmit server files)) = files /\
   (In (push "/dashboard") (handleSubmit server files) <->
    Forall (fun f => exists body, server f = AnswersOk body) files) /\
   (In (alert "Failed to upload resumes. Please try again.")
       (handleSubmit server files) <->
    ~ Forall (fun f => exists body, server f = AnswersOk body) files) /\
   last (handleSubmit server files) (setIsUploading true) = setIsUploading false).
Proof.
  split; [reflexivity |]. intros Hne. unfold handleSubmit.
  destruct files as [|f0 files0] eqn:Ef; [contradiction |].
  cbn [List.length Nat.eqb]. rewrite <- Ef. clear Hne.
  pose proof (promises_fulfilled server files) as Hp.
  split; [| split; [| split]].
  - cbn [map filter_Boolean uploaded]. rewrite uploaded_uploads.
    destruct (map_throwing _ files); cbn; apply app_nil_r.
  - destruct (map_throwing (uploadPromise server) files) as [results|].
    + split; [intros _; apply Hp; now eexists |]. intros _.
      right. apply in_or_app. right. right. now left.
    + split.
      * intros [H | H]; [discriminate |].
        apply in_app_or in H as [H | H].
        -- apply in_map_iff in H as (x & Hx & _). discriminate.
        -- cbn in H. intuition discriminate.
      * intros H. apply Hp in H as [results H]. discriminate.
  - destruct (map_throwing (uploadPromise server) files) as [results|].
    + split.
      * intros [H | H]; [discriminate |].
        apply in_app_or in H as [H | H].
        -- apply in_map_iff in H as (x & Hx & _). discriminate.
        -- cbn in H. intuition discriminate.
      * intros H. exfalso. apply H, Hp. now eexists.
    + split.
      * intros _ H. apply Hp in H as [results H]. discriminate.
      * intros _. right. apply in_or_app. right. right. now left.
  - rewrite app_comm_cons, app_assoc. apply last_last.
Qed.

Lemma submit_all_or_alert_witness :
  In (alert "Failed to upload resumes. Please try again.")
     (handleSubmit
        (fun f => if (name f =? "b.pdf")%string then AnswersNotOk
                  else AnswersOk JNull)
        [ {| name := "a.pdf"; size := 10 |}; {| name := "b.pdf"; size := 20 |};
          {| name := "c.pdf"; size := 30 |} ]) /\
  filter_Boolean
    (map uploaded
       (handleSubmit
          (fun f => if (name f =? "b.pdf")%string then AnswersNotOk
                    else AnswersOk JNull)
          [ {| name := "a.pdf"; size := 10 |}; {| name := "b.pdf"; size := 20 |};
            {| name := "c.pdf"; size := 30 |} ]))
  = [ {| name := "a.pdf"; size := 10 |}; {| name := "b.pdf"; size := 20 |};
      {| name := "c.pdf"; size := 30 |} ].
Proof.
  destruct (submit_all_or_alert
              (fun f => if (name f =? "b.pdf")%string then AnswersNotOk
                        else AnswersOk JNull)
              [ {| name := "a.pdf"; size := 10 |}; {| name := "b.pdf"; size := 20 |};
                {| name := "c.pdf"; size := 30 |} ]) as [_ H].
  destruct H as (Hu & _ & Ha & _); [discriminate |].
  split; [| exact Hu]. apply Ha. intros HF.
  inversion HF as [|? ? _ HF']; subst. inversion HF' as [|? ? [body Hb] _]; subst.
  discriminate Hb.
Defined.

(** ** The shortlist *)

Lemma has_In (s : list string) (x : string) : has s x = true <-> In x s.
Proof.
  unfold has. rewrite existsb_exists. split.
  - intros [y [Hy E]]. apply String.eqb_eq in E. now subst.
  - intros H. exists x. split; [assumption | apply String.eqb_refl].
Qed.

Lemma has_delete (s : list string) (x y : string) :
  has (delete s x) y = has s y && negb (y =? x)%string.
Proof.
  apply Bool.eq_iff_eq_true. rewrite andb_true_iff, !has_In.
  unfold delete. now rewrite filter_In.
Qed.

Lemma has_add (s : list string) (x y : string) :
  has (add s x) y = has s y || (x =? y)%string.
Proof.
  apply Bool.eq_iff_eq_true.
  rewrite orb_true_iff, !has_In, String.eqb_eq. unfold add.
  destruct (has s x) eqn:Hx.
  - apply has_In in Hx. split; [now left | intros [H | <-]; assumption].
  - rewrite in_app_iff. cbn [In]. tauto.
Qed.

(** X17: pressing the shortlist button of a resume changes the membership
    of that resume and of no other; pressing it twice gives back the same
    members; and a shortlist without repetition stays so, one longer or
    one shorter. *)
Theorem toggleShortlist_flips (resumeId : string) (shortlisted : list string) :
  (forall x,
      has (toggleShortlist resumeId shortlisted) x
      = if (x =? resumeId)%string then negb (has shortlisted resumeId)
        else has shortlisted x) /\
  (forall x,
      has (toggleShortlist resumeId (toggleShortlist resumeId shortlisted)) x
      = has shortlisted x) /\
  (NoDup shortlisted ->
   NoDup (toggleShortlist resumeId shortlisted) /\
   List.length (toggleShortlist resumeId shortlisted)
   = if has shortlisted resumeId then pred (List.length shortlisted)
     else S (List.length shortlisted)).
Proof.
  assert (F : forall s x,
             has (toggleShortlist resumeId s) x
             = if (x =? resumeId)%string then negb (has s resumeId) else has s x).
  { intros s x. unfold toggleShortlist. destruct (has s resumeId) eqn:Hh.
    - rewrite has_delete. destruct (String.eqb_spec x resumeId) as [-> | _].
      + now rewrite andb_false_r.
      + now rewrite andb_true_r.
    - rewrite has_add. rewrite String.eqb_sym.
      destruct (String.eqb_spec x resumeId) as [-> | _].
      + now rewrite orb_true_r.
      + now rewrite orb_false_r. }
  split; [apply F |]. split.
  - intros x. rewrite F. destruct (String.eqb_spec x resumeId) as [-> | Hne].
    + rewrite F, String.eqb_refl. apply negb_involutive.
    + rewrite F. apply String.eqb_neq in Hne. now rewrite Hne.
  - intros Hnd. unfold toggleShortlist. destruct (has shortlisted resumeId) eqn:Hh.
    + split; [now apply NoDup_filter |].
      apply has_In in Hh. unfold delete.
      induction Hnd as [|z s Hz Hnd IH]; [contradiction |].
      cbn [filter List.length]. destruct (String.eqb_spec z resumeId) as [-> | Hne].
      * cbn [negb pred]. rewrite filter_all; [reflexivity |].
        intros y Hy. apply negb_true_iff, String.eqb_neq. congruence.
      * cbn [negb List.length pred]. destruct Hh as [-> | Hh]; [contradiction |].
        rewrite (IH Hh). destruct s; [contradiction | reflexivity].
    + unfold add. rewrite Hh. split.
      * apply NoDup_app; [assumption | constructor; [intros [] | constructor] |].
        intros x Hx [<- | []]. apply has_In in Hx. congruence.
      * rewrite length_app. cbn. lia.
Qed.

Lemma toggleShortlist_flips_witness :
  toggleShortlist "r-b" ["r-a"; "r-b"; "r-c"] = ["r-a"; "r-c"] /\
  NoDup (toggleShortlist "r-d" ["r-a"; "r-b"; "r-c"]) /\
  List.length (toggleShortlist "r-d" ["r-a"; "r-b"; "r-c"]) = 4%nat.
Proof.
  destruct (toggleShortlist_flips "r-d" ["r-a"; "r-b"; "r-c"]) as (_ & _ & H).
  destruct H as [Hn Hl].
  - repeat (constructor; [cbn; intuition discriminate |]). constructor.
  - split; [reflexivity |]. split; [exact Hn | exact Hl].
Defined.

(** ** The export *)

Lemma string_app_assoc (s t u : string) :
  ((s ++ t) ++ u = s ++ (t ++ u))%string.
Proof.
  induction s as [|c s IH]; [reflexivity |].
  cbn [String.append]. now rewrite IH.
Qed.

Lemma occurrences_app (c : ascii) (s t : string) :
  occurrences c (s ++ t) = (occurrences c s + occurrences c t)%nat.
Proof.
  induction s as [|d s IH]; [reflexivity |].
  cbn [String.append occurrences]. rewrite IH. lia.
Qed.

(** X18: the export neither quotes nor escapes a field.  A line of a
    result has the five commas of the header and the commas of its
    fields: a comma in a name, an email or a number shifts the columns of
    the line.  Its last column is Yes when the resume is on the shortlist
    and No otherwise, and nothing else of the line depends on the
    shortlist. *)
Theorem export_does_not_escape
  (Number_toString : Q -> string) (shortlisted : list string) (result : Shown) :
  commas (csvRow Number_toString shortlisted result)
  = (commas csvHeader
     + (commas (c_name (shown_resume result))
        + commas (c_email (shown_resume result))
        + commas (Number_toString (shown_score result))
        + commas (Number_toString (c_experience (shown_resume result)))
        + commas (join ";" (c_skills (shown_resume result)))))%nat /\
  exists line,
    forall s,
      csvRow Number_toString s result
      = (line ++ (if has s (c_id (shown_resume result)) then "Yes" else "No"))%string.
Proof.
  split.
  - unfold csvRow, commas. cbn [join].
    rewrite !occurrences_app.
    change (occurrences "," csvHeader) with 5%nat.
    change (occurrences "," ",") with 1%nat.
    destruct (has shortlisted (c_id (shown_resume result)));
      [change (occurrences "," "Yes") with 0%nat
      | change (occurrences "," "No") with 0%nat]; lia.
  - exists (c_name (shown_resume result) ++ "," ++
            c_email (shown_resume result) ++ "," ++
            Number_toString (shown_score result) ++ "," ++
            Number_toString (c_experience (shown_resume result)) ++ "," ++
            join ";" (c_skills (shown_resume result)) ++ ",")%string.
    intros s. unfold csvRow. cbn [join].
    rewrite !string_app_assoc. reflexivity.
Qed.

Lemma export_does_not_escape_witness :
  commas (csvRow (fun q => toString (Qfloor q)) ["r-1"]
            {| shown_resume := {| c_id := "r-1"; c_name := "Doe, Jane";
                                  c_email := "jane@x.com"; c_experience := 6;
                                  c_skills := ["Python"; "SQL"] |};
               shown_score := 87 |})
  = 6%nat /\
  csvRow (fun q => toString (Qfloor q)) ["r-1"]
    {| shown_resume := {| c_id := "r-1"; c_name := "Doe, Jane";
                          c_email := "jane@x.com"; c_experience := 6;
                          c_skills := ["Python"; "SQL"] |};
       shown_score := 87 |}
  = "Doe, Jane,jane@x.com,87,6,Python;SQL,Yes".
Proof.
  destruct (export_does_not_escape (fun q => toString (Qfloor q)) ["r-1"]
              {| shown_resume := {| c_id := "r-1"; c_name := "Doe, Jane";
                                    c_email := "jane@x.com"; c_experience := 6;
                                    c_skills := ["Python"; "SQL"] |};
                 shown_score := 87 |}) as [H _].
  split; [rewrite H |]; vm_compute; reflexivity.
Defined.

(** ** The skills taken from a job description *)

Lemma lower_ascii_eqb (a b : ascii) :
  Ascii.eqb (lower_ascii a) (lower_ascii b) = true <-> lower_ascii a = lower_ascii b.
Proof. apply Ascii.eqb_eq. Qed.

Lemma match_literal_sound (w s m rest : string) :
  match_literal w s = Some (m, rest) ->
  s = (m ++ rest)%string /\ fold_case m = fold_case w /\
  String.length m = String.length w.
Proof.
  revert s m rest. induction w as [|a w IH]; intros s m rest.
  - cbn [match_literal]. intros [= <- <-]. now repeat split.
  - cbn [match_literal]. destruct s as [|b s]; [discriminate |].
    destruct (Ascii.eqb (lower_ascii a) (lower_ascii b)) eqn:E; [| discriminate].
    destruct (match_literal w s) as [[m' rest']|] eqn:Em; [| discriminate].
    intros [= <- <-]. apply lower_ascii_eqb in E.
    destruct (IH _ _ _ Em) as (-> & Hl & Hn).
    cbn [String.append fold_case String.length]. now rewrite Hl, E, Hn.
Qed.

Lemma first_alternative_sound (ws : list string) (prev : option ascii)
  (s m : string) :
  first_alternative ws prev s = Some m ->
  exists w rest,
    In w ws /\ match_literal w s = Some (m, rest) /\
    boundary (last_char prev m) rest = true.
Proof.
  induction ws as [|w ws IH]; [discriminate |].
  cbn [first_alternative].
  destruct (match_literal w s) as [[m' rest]|] eqn:Em.
  - destruct (boundary (last_char prev m') rest) eqn:Eb.
    + intros [= <-]. exists w, rest. repeat split; [now left | assumption..].
    + intros H. destruct (IH H) as (w' & rest' & Hin & Hm & Hb).
      exists w', rest'. repeat split; [now right | assumption..].
  - intros H. destruct (IH H) as (w' & rest' & Hin & Hm & Hb).
    exists w', rest'. repeat split; [now right | assumption..].
Qed.

Lemma match_at_sound (prev : option ascii) (s m : string) :
  match_at prev s = Some m ->
  exists rest,
    s = (m ++ rest)%string /\
    boundary prev s = true /\ boundary (last_char prev m) rest = true /\
    exists w, In w alternatives /\ fold_case m = fold_case w.
Proof.
  unfold match_at. destruct (boundary prev s) eqn:Eb; [| discriminate].
  intros H. apply first_alternative_sound in H as (w & rest & Hin & Hm & Hb).
  apply match_literal_sound in Hm as (Hs & Hl & _).
  exists rest. repeat split; try assumption. now exists w.
Qed.

Lemma Substring_tail (m s : string) (c : ascii) :
  Substring m s -> Substring m (String c s).
Proof.
  intros [pre [post ->]]. now exists (String c pre), post.
Qed.

Lemma scan_sound (s : string) :
  forall skip prev m,
    In m (scan skip prev s) ->
    Substring m s /\ exists w, In w alternatives /\ fold_case m = fold_case w.
Proof.
  induction s as [|c s IH]; intros skip prev m.
  - destruct skip as [|k]; cbn [scan]; [| contradiction].
    destruct (match_at prev "") as [m'|] eqn:Em; [| contradiction].
    intros [<- | []]. apply match_at_sound in Em as (rest & Hs & _ & _ & Hw).
    split; [| assumption]. now exists EmptyString, rest.
  - destruct skip as [|k]; cbn [scan].
    + destruct (match_at prev (String c s)) as [m'|] eqn:Em.
      * intros [<- | Hin].
        -- apply match_at_sound in Em as (rest & Hs & _ & _ & Hw).
           split; [| assumption]. now exists EmptyString, rest.
        -- destruct (IH _ _ _ Hin) as [Hsub Hw].
           split; [now apply Substring_tail | assumption].
      * intros Hin. destruct (IH _ _ _ Hin) as [Hsub Hw].
        split; [now apply Substring_tail | assumption].
    + intros Hin. destruct (IH _ _ _ Hin) as [Hsub Hw].
      split; [now apply Substring_tail | assumption].
Qed.

(** X19: every skill taken from a job description is a piece of the
    description, in the case the description has it, and is one of the ten
    alternatives of the pattern, case ignored. *)
Theorem extracted_skill_in_vocabulary (jobDescription m : string) :
  In m (extractedSkills jobDescription) ->
  Substring m jobDescription /\
  exists w, In w alternatives /\ fold_case m = fold_case w.
Proof.
  unfold extractedSkills. apply scan_sound.
Qed.

Lemma extracted_skill_in_vocabulary_witness :
  extractedSkills "Requires python, SQL; Reactive MySQL." = ["python"; "SQL"] /\
  Substring "python" "Requires python, SQL; Reactive MySQL." /\
  exists w, In w alternatives /\ fold_case "python" = fold_case w.
Proof.
  split; [vm_compute; reflexivity |].
  apply (extracted_skill_in_vocabulary "Requires python, SQL; Reactive MySQL."
           "python").
  vm_compute. left. reflexivity.
Defined.

(** *** Descriptions made of plain words *)

Lemma match_literal_complete (v w t : string) :
  fold_case v = fold_case w -> match_literal v (w ++ t) = Some (w, t).
Proof.
  revert w. induction v as [|a v IH]; intros w H.
  - destruct w; [reflexivity | discriminate].
  - destruct w as [|b w]; [discriminate |].
    cbn [fold_case] in H. injection H as Hc Hs.
    cbn [String.append match_literal].
    rewrite Hc, Ascii.eqb_refl. now rewrite (IH w Hs).
Qed.

Lemma plain_word_all_word (s : string) :
  plain_word s = true ->
  all_word s = true /\ exists c s', s = String c s' /\ is_word c = true.
Proof.
  induction s as [|c s IH]; [discriminate |].
  cbn [plain_word all_word]. destruct s as [|d s].
  - intros H. rewrite H. split; [reflexivity | now exists c, EmptyString].
  - intros H. apply andb_true_iff in H as [Hc Hs].
    destruct (IH Hs) as [Ha _]. rewrite Hc, Ha.
    split; [reflexivity | now exists c, (String d s)].
Qed.

Lemma lower_ascii_space (a : ascii) : lower_ascii a = " "%char -> a = " "%char.
Proof.
  destruct a as [[] [] [] [] [] [] [] []]; vm_compute; congruence.
Qed.

Lemma spaceless_lower (m v : string) :
  fold_case m = fold_case v -> spaceless v = true -> spaceless m = true.
Proof.
  revert v. induction m as [|b m IH]; intros v H Hv; [reflexivity |].
  destruct v as [|a v]; [discriminate |].
  cbn [fold_case] in H. injection H as Hc Hs.
  cbn [spaceless] in *. apply andb_true_iff in Hv as [Ha Hv].
  rewrite (IH v Hs Hv), andb_true_r.
  destruct (Ascii.eqb_spec b " ") as [-> | _]; [| reflexivity].
  symmetry in Hc. apply lower_ascii_space in Hc. subst a. discriminate Ha.
Qed.

Lemma word_is_not_space (c : ascii) : is_word c = true -> Ascii.eqb c " " = false.
Proof.
  destruct (Ascii.eqb_spec c " ") as [-> | _]; [discriminate | reflexivity].
Qed.

Lemma split_in_word (m rest w t : string) :
  (m ++ rest = w ++ t)%string ->
  spaceless m = true -> gap t ->
  exists w2, w = (m ++ w2)%string /\ rest = (w2 ++ t)%string.
Proof.
  revert w. induction m as [|b m IH]; intros w H Hm Ht.
  - now exists w.
  - cbn [spaceless] in Hm. apply andb_true_iff in Hm as [Hb Hm].
    destruct w as [|c w].
    + cbn [String.append] in H. destruct Ht as [-> | [t' ->]]; [discriminate |].
      injection H as -> _. discriminate Hb.
    + cbn [String.append] in H. injection H as -> H.
      destruct (IH w H Hm Ht) as (w2 & -> & ->). now exists w2.
Qed.

Lemma last_char_word (prev : option ascii) (m : string) :
  m <> EmptyString -> all_word m = true ->
  exists c, last_char prev m = Some c /\ is_word c = true.
Proof.
  revert prev. induction m as [|b m IH]; intros prev Hne Hm; [contradiction |].
  cbn [all_word] in Hm. apply andb_true_iff in Hm as [Hb Hm].
  cbn [last_char]. destruct m as [|d m].
  - now exists b.
  - apply IH; [discriminate | assumption].
Qed.

Lemma all_word_app (s t : string) :
  all_word (s ++ t) = all_word s && all_word t.
Proof.
  induction s as [|c s IH]; [reflexivity |].
  cbn [String.append all_word]. now rewrite IH, andb_assoc.
Qed.

Lemma boundary_after_word (prev : option ascii) (w t : string) :
  plain_word w = true -> gap t -> boundary (last_char prev w) t = true.
Proof.
  intros Hw Ht. destruct (plain_word_all_word w Hw) as (Ha & c & w' & -> & _).
  destruct (last_char_word prev (String c w')) as (d & -> & Hd);
    [discriminate | assumption |].
  unfold boundary. rewrite Hd. now destruct Ht as [-> | [t' ->]].
Qed.

Lemma first_alternative_word (ws : list string) (prev : option ascii)
  (w t : string) :
  Forall (fun v => v <> EmptyString /\ spaceless v = true) ws ->
  plain_word w = true -> gap t ->
  first_alternative ws prev (w ++ t)
  = if existsb (fun v => fold_case v =? fold_case w)%string ws
    then Some w else None.
Proof.
  intros Hws Hw Ht. induction Hws as [|v ws [Hne Hsp] _ IH]; [reflexivity |].
  cbn [first_alternative existsb].
  destruct (String.eqb_spec (fold_case v) (fold_case w)) as [E | E].
  - rewrite (match_literal_complete v w t E).
    now rewrite (boundary_after_word prev w t Hw Ht).
  - cbn [orb]. destruct (match_literal v (w ++ t)) as [[m rest]|] eqn:Em;
      [| exact IH].
    apply match_literal_sound in Em as (Hs & Hl & Hn).
    pose proof (spaceless_lower m v Hl Hsp) as Hm.
    symmetry in Hs. destruct (split_in_word m rest w t Hs Hm Ht) as (w2 & -> & ->).
    destruct (plain_word_all_word _ Hw) as (Ha & _).
    rewrite all_word_app in Ha. apply andb_true_iff in Ha as [Ham Haw].
    destruct w2 as [|c w2].
    + exfalso. apply E. rewrite <- Hl. f_equal.
      clear. induction m as [|b m IHm]; [reflexivity |].
      cbn [String.append]. now rewrite <- IHm.
    + assert (Hmne : m <> EmptyString).
      { destruct m; [| discriminate]. destruct v; [contradiction | discriminate]. }
      destruct (last_char_word prev m Hmne Ham) as (d & -> & Hd).
      cbn [all_word] in Haw. apply andb_true_iff in Haw as [Hc _].
      unfold boundary. cbn [String.append]. rewrite Hd, Hc. exact IH.
Qed.

Lemma alternatives_spaceless :
  Forall (fun v => v <> EmptyString /\ spaceless v = true) alternatives.
Proof.
  repeat (apply Forall_cons; [split; [discriminate | reflexivity] |]).
  apply Forall_nil.
Qed.

Lemma match_at_word (prev : option ascii) (w t : string) :
  after_gap prev -> plain_word w = true -> gap t ->
  match_at prev (w ++ t) = if known_skill w then Some w else None.
Proof.
  intros Hp Hw Ht. unfold match_at, known_skill.
  rewrite (first_alternative_word _ prev w t alternatives_spaceless Hw Ht).
  destruct (plain_word_all_word w Hw) as (_ & c & w' & -> & Hc).
  unfold boundary. cbn [String.append]. rewrite Hc.
  destruct prev as [p|]; [| reflexivity].
  cbn in Hp. now rewrite Hp.
Qed.

Lemma scan_skip (x t : string) (p : option ascii) :
  scan (String.length x) p (x ++ t) = scan 0 (last_char p x) t.
Proof.
  revert p. induction x as [|c x IH]; intros p; [reflexivity |].
  cbn [String.length String.append scan last_char]. apply IH.
Qed.

Lemma scan_inside_word (x t : string) (p : ascii) :
  is_word p = true -> all_word x = true ->
  scan 0 (Some p) (x ++ t) = scan 0 (last_char (Some p) x) t.
Proof.
  revert p. induction x as [|c x IH]; intros p Hp Hx; [reflexivity |].
  cbn [all_word] in Hx. apply andb_true_iff in Hx as [Hc Hx].
  cbn [String.append scan last_char].
  unfold match_at, boundary. rewrite Hp, Hc. cbn [xorb].
  now apply IH.
Qed.

Lemma scan_end (p : option ascii) : scan 0 p "" = [].
Proof.
  cbn [scan]. unfold match_at. now destruct (boundary p "").
Qed.

Lemma scan_space (p : option ascii) (t : string) :
  scan 0 p (String " " t) = scan 0 (Some " "%char) t.
Proof.
  cbn [scan]. unfold match_at.
  destruct (boundary p (String " " t)); reflexivity.
Qed.

Lemma scan_word (prev : option ascii) (w t : string) :
  after_gap prev -> plain_word w = true -> gap t ->
  scan 0 prev (w ++ t)
  = (if known_skill w then [w] else []) ++ scan 0 (last_char prev w) t.
Proof.
  intros Hp Hw Ht.
  pose proof (match_at_word prev w t Hp Hw Ht) as Hm.
  destruct (plain_word_all_word w Hw) as (Ha & c & w' & -> & Hc).
  cbn [all_word] in Ha. apply andb_true_iff in Ha as [_ Ha].
  cbn [String.append] in *. cbn [scan]. rewrite Hm.
  destruct (known_skill (String c w')).
  - cbn [String.length Nat.sub app]. rewrite Nat.sub_0_r.
    now rewrite scan_skip.
  - cbn [app last_char]. now apply scan_inside_word.
Qed.

Lemma string_app_nil (s : string) : (s ++ "")%string = s.
Proof.
  induction s as [|c s IH]; [reflexivity |].
  cbn [String.append]. now rewrite IH.
Qed.

Lemma scan_plain_words (words : list string) (prev : option ascii) :
  after_gap prev ->
  Forall (fun w => plain_word w = true) words ->
  scan 0 prev (join " " words) = filter known_skill words.
Proof.
  intros Hp Hws. revert prev Hp.
  induction Hws as [|w words Hw Hws IH]; intros prev Hp.
  - apply scan_end.
  - destruct words as [|w2 words].
    + cbn [join filter]. rewrite <- (string_app_nil w) at 1.
      rewrite (scan_word prev w "" Hp Hw (or_introl eq_refl)).
      rewrite scan_end, app_nil_r. now destruct (known_skill w).
    + change (join " " (w :: w2 :: words))
        with (w ++ String " " (join " " (w2 :: words)))%string.
      rewrite (scan_word prev w _ Hp Hw (or_intror (ex_intro _ _ eq_refl))).
      rewrite scan_space, (IH (Some " "%char) eq_refl).
      cbn [filter]. now destruct (known_skill w).
Qed.

(** X20: for a job description made of words of letters, digits and
    underscores, with one space between two words, the skills taken from it
    are the words that are one of the alternatives Python, SQL, ..., case
    ignored: all of them, in the order of the description, each as often as
    it occurs and in the case the description has it. *)
Theorem skills_of_plain_words (words : list string) :
  Forall (fun w => plain_word w = true) words ->
  extractedSkills (join " " words) = filter known_skill words.
Proof.
  intros H. unfold extractedSkills. now apply scan_plain_words.
Qed.

Lemma skills_of_plain_words_witness :
  extractedSkills "Senior python and SQL and Python3 and MySQL and sql"
  = ["python"; "SQL"; "sql"].
Proof.
  change "Senior python and SQL and Python3 and MySQL and sql"
    with (join " " ["Senior"; "python"; "and"; "SQL"; "and"; "Python3"; "and";
                    "MySQL"; "and"; "sql"]).
  rewrite (skills_of_plain_words
             ["Senior"; "python"; "and"; "SQL"; "and"; "Python3"; "and";
              "MySQL"; "and"; "sql"]).
  - vm_compute. reflexivity.
  - repeat (apply Forall_cons; [vm_compute; reflexivity |]). apply Forall_nil.
Defined.

(* ================================================================== *)
(** * The results of the backend and the foreign key *)
(* ================================================================== *)

(** X21: the rows of the results of the backend are stored in one insert,
    and refer to the resumes of the store.  When a result of the backend
    names a resume that the store does not have, the insert is refused:
    the answer is still 200 with every result, the error goes to the
    console, and, the delete done, the job description is left without any
    match row. *)
Theorem backend_unknown_resume_stores_nothing {cm : CaseMapping}
  (cosineSimilarity : list Q -> list Q -> option Q)
  (env : Env) (db : DB) (jid : string) (jd : JobDescription)
  (data : BackendData) (rs : list BackendResult) (r : BackendResult) :
  select_job_description env db jid = Some jd ->
  resumes_query_error env = None ->
  backend env = BackendOk data ->
  success data = true ->
  results data = Some rs ->
  delete_fails env = false ->
  In r rs ->
  (forall c, In c (resumes db) -> id c <> br_resume_id r) ->
  response (POST cosineSimilarity env db jid)
  = {| status := 200; body := JArr (map formattedResult rs) |} /\
  log (POST cosineSimilarity env db jid) = [storing_error] /\
  match_results (store (POST cosineSimilarity env db jid))
  = others jid (match_results db).
Proof.
  intros Hjd Hq Hb Hs Hrs Hd Hr Hunknown.
  assert (Hfk : foreign_keys_ok (delete_match_results env db jid)
                  (backendInserts jid rs) = false).
  { unfold foreign_keys_ok, delete_match_results. rewrite Hd.
    cbn [job_descriptions resumes with_match_results].
    destruct (forallb _ (backendInserts jid rs)) eqn:E; [| reflexivity].
    rewrite forallb_forall in E.
    specialize (E _ (in_map _ _ _ Hr)). cbn [job_description_id resume_id] in E.
    apply andb_true_iff in E as [_ E]. apply existsb_exists in E as (c & Hc & E).
    apply String.eqb_eq in E. now apply Hunknown in Hc. }
  unfold POST, select_resumes. rewrite Hjd, Hq, Hb.
  unfold use_backend. rewrite Hs, Hrs. cbn [negb].
  unfold replace_matches, insert_match_results.
  destruct (insert_fault env) as [e|].
  - cbn [response log store app]. repeat split.
    unfold delete_match_results. now rewrite Hd.
  - rewrite Hfk.
    destruct (unique_ok (delete_match_results env db jid) (backendInserts jid rs));
      cbn [negb response log store app]; repeat split;
      unfold delete_match_results; now rewrite Hd.
Qed.

Lemma backend_unknown_resume_stores_nothing_witness :
  response (POST Sample.cosine
              (Sample.backend_up
                 [ {| br_resume_id := "42"; br_candidate_name := Some "Jane";
                      br_email := None; br_file_name := Some "jane.pdf";
                      br_experience_years := Some 6%Z; br_skills := Some ["Python"];
                      br_education := None; br_similarity_score := 87;
                      br_matched_skills := ["Python"];
                      br_highlights := ["6 years of experience"] |} ])
              (Sample.db_of Sample.pool Sample.stale) "jd-1")
  = {| status := 200;
       body := JArr (map formattedResult
                 [ {| br_resume_id := "42"; br_candidate_name := Some "Jane";
                      br_email := None; br_file_name := Some "jane.pdf";
                      br_experience_years := Some 6%Z; br_skills := Some ["Python"];
                      br_education := None; br_similarity_score := 87;
                      br_matched_skills := ["Python"];
                      br_highlights := ["6 years of experience"] |} ]) |} /\
  map key (match_results
             (store (POST Sample.cosine
                       (Sample.backend_up
                          [ {| br_resume_id := "42"; br_candidate_name := Some "Jane";
                               br_email := None; br_file_name := Some "jane.pdf";
                               br_experience_years := Some 6%Z;
                               br_skills := Some ["Python"];
                               br_education := None; br_similarity_score := 87;
                               br_matched_skills := ["Python"];
                               br_highlights := ["6 years of experience"] |} ])
                       (Sample.db_of Sample.pool Sample.stale) "jd-1")))
  = [("jd-9", "r-a")].
Proof.
  destruct (backend_unknown_resume_stores_nothing Sample.cosine
              (Sample.backend_up
                 [ {| br_resume_id := "42"; br_candidate_name := Some "Jane";
                      br_email := None; br_file_name := Some "jane.pdf";
                      br_experience_years := Some 6%Z; br_skills := Some ["Python"];
                      br_education := None; br_similarity_score := 87;
                      br_matched_skills := ["Python"];
                      br_highlights := ["6 years of experience"] |} ])
              (Sample.db_of Sample.pool Sample.stale) "jd-1" Sample.the_jd
              _ _ _ eq_refl eq_refl eq_refl eq_refl eq_refl eq_refl
              (or_introl eq_refl)) as (Hr & _ & Hs).
  - intros c Hc. cbn in Hc.
    repeat (destruct Hc as [<- | Hc]; [discriminate |]). contradiction.
  - split; [exact Hr |]. rewrite Hs. reflexivity.
Defined.
